(** * Reducers of the React + TypeScript course code, embedded in Rocq

    The development covers the three pieces of executable logic of the
    repository that carry state or errors:

    - [Cart]: the Redux Toolkit slice of [store/cart-slice.ts]
      ([addToCart], [removeFromCart]);
    - [Timers]: the [useReducer] reducer of [store/timers-context.tsx]
      ([timersReducer]);
    - [Http]: the fetch helper [get] of [util/http.ts].

    Around them it covers their callers and neighbours: the handlers and
    the selector of the [CartItems] component, the methods of the timers
    context provider, the goal list of the [react-ts-basics] app, the
    component that loads the blog posts, the validating variant of
    [get], and [merge] of [first-app.ts].

    Conventions of the embedding.

    - A JavaScript [string] is a [string]; [===] on strings is [String.eqb].
    - A JavaScript [number] is a binary64 [float], the primitive floats
      of Rocq, whatever it is used for: a price and a duration, which are
      only stored and handed on, and the [quantity] of a cart item, which
      [++] and [--] change by a binary64 addition and subtraction of [1]
      and [=== 1] tests by the IEEE comparison.  [double n] is the float
      of the integer [n]; up to 2^53 the addition and subtraction of [1]
      are exact on these, which the file proves from the specification
      of the primitive operations.
    - An array is a [list]; an index is a [Z], because [findIndex]
      answers [-1] when nothing matches.  Reading an array outside its
      bounds gives [undefined], modelled by [None].
    - Code that can throw returns a [completion]: either a normal value or
      the exception thrown.
    - The slice reducers are written against an Immer draft which they
      mutate; the next state Immer produces is the value the embedded
      function returns. *)

From Stdlib Require Import ZArith String Lia.
From Stdlib Require Import Floats Uint63.
From stdpp Require Import base list strings gmap.

Local Open Scope Z_scope.

(** ** JavaScript values shared by the modules *)

(** The exceptions the embedded code can raise. *)
Inductive JsError : Type :=
| Error (message : string)   (* [new Error(message)] *)
| TypeError                  (* a property read on [undefined] *)
| SyntaxError                (* a body that is not JSON *)
| NetworkError.              (* [fetch] could not get a response *)

(** The outcome of running a piece of code. *)
Inductive completion (A : Type) : Type :=
| Normal (value : A)
| Throw (e : JsError).

Arguments Normal {A} value.
Arguments Throw {A} e.

#[export] Instance completion_ret : MRet completion := @Normal.

#[export] Instance completion_bind : MBind completion :=
  fun A B (k : A -> completion B) (c : completion A) =>
    match c with
    | Normal a => k a
    | Throw e => Throw e
    end.

Definition throws {A : Type} (c : completion A) : Prop :=
  exists e, c = Throw e.

Definition returns {A : Type} (c : completion A) : Prop :=
  exists a, c = Normal a.

(** ** Numbers *)

(** The binary64 number of an integer, as a literal or a conversion of
    the language gives it. *)
Definition double (n : Z) : float := PrimFloat.of_uint63 (Uint63.of_Z n).

(** The integer a number is, when it is one. *)
Definition integer_value (x : float) : option Z :=
  match Prim2SF x with
  | S754_zero _ => Some 0
  | S754_finite s m e =>
      if 0 <=? e then Some (cond_Zopp s (Zpos m * 2 ^ e))
      else if Zpos m mod 2 ^ (- e) =? 0
           then Some (cond_Zopp s (Zpos m / 2 ^ (- e)))
           else None
  | _ => None
  end.

(** The mantissa and exponent of the binary64 number of an integer from
    1 to 2^53 - 1: 53 bits of mantissa, the first of them set. *)
Definition canonical (n : Z) : spec_float :=
  S754_finite false (Z.to_pos (n * 2 ^ (52 - Z.log2 n))) (Z.log2 n - 52).

(** The numbers a counter goes through: the integers from 1 to 2^53. *)
Definition counted (x : float) : Prop :=
  exists n, 1 <= n <= 2 ^ 53 /\ x = double n.

(** ** Arrays *)

Section Arrays.
Context {A : Type}.

(** [Array.prototype.findIndex]: the index of the first element that
    satisfies [p], [-1] when there is none. *)
Fixpoint findIndex_from (p : A -> bool) (l : list A) (i : Z) : Z :=
  match l with
  | [] => -1
  | x :: l' => if p x then i else findIndex_from p l' (i + 1)
  end.

Definition findIndex (p : A -> bool) (l : list A) : Z :=
  findIndex_from p l 0.

(** [arr[i]]: [undefined] for a negative index and past the end. *)
Definition at_index (l : list A) (i : Z) : option A :=
  if i <? 0 then None else l !! Z.to_nat i.

(** [arr[i] = x] for an index inside the array. *)
Definition set_index (l : list A) (i : Z) (x : A) : list A :=
  <[Z.to_nat i := x]> l.

(** [arr.splice(start, 1)]: a negative [start] counts from the end, a
    [start] past the end removes nothing. *)
Definition splice1 (l : list A) (start : Z) : list A :=
  let len := Z.of_nat (length l) in
  let k := if start <? 0 then Z.max (len + start) 0 else Z.min start len in
  delete (Z.to_nat k) l.

(** What [findIndex] answers, by cases: the position of the first match,
    with no match before it, or [-1] with no match at all. *)
Inductive findIndex_spec (p : A -> bool) (l : list A) : Z -> Prop :=
| findIndex_found l1 x l2 :
    l = l1 ++ x :: l2 ->
    Forall (fun y => p y = false) l1 ->
    p x = true ->
    findIndex_spec p l (Z.of_nat (length l1))
| findIndex_none :
    Forall (fun y => p y = false) l ->
    findIndex_spec p l (-1).

End Arrays.

(** ** The cart slice *)

Module Cart.

Record CartItem : Type := {
  id : string;
  title : string;
  price : float;
  quantity : float
}.

Record CartState : Type := {
  items : list CartItem
}.

Definition initialState : CartState := {| items := [] |}.

(** The payload of [addToCart]: [{id; title; price}]. *)
Record ItemPayload : Type := {
  payload_id : string;
  payload_title : string;
  payload_price : float
}.

(** [item.quantity = q], the other fields kept. *)
Definition with_quantity (item : CartItem) (q : float) : CartItem :=
  {| id := id item; title := title item; price := price item;
     quantity := q |}.

(** [{...payload, quantity: 1}] *)
Definition new_item (payload : ItemPayload) : CartItem :=
  {| id := payload_id payload; title := payload_title payload;
     price := payload_price payload; quantity := 1%float |}.

Definition has_id (i : string) (item : CartItem) : bool :=
  String.eqb (id item) i.

Definition addToCart (state : CartState) (payload : ItemPayload)
  : completion CartState :=
  let itemIndex := findIndex (has_id (payload_id payload)) (items state) in
  if itemIndex >=? 0 then
    match at_index (items state) itemIndex with
    | None => Throw TypeError
    | Some item =>
        Normal {| items := set_index (items state) itemIndex
                             (with_quantity item (quantity item + 1)%float) |}
    end
  else
    Normal {| items := items state ++ [new_item payload] |}.

Definition removeFromCart (state : CartState) (payload : string)
  : completion CartState :=
  let itemIndex := findIndex (has_id payload) (items state) in
  match at_index (items state) itemIndex with
  | None => Throw TypeError
  | Some item =>
      if (quantity item =? 1)%float then
        Normal {| items := splice1 (items state) itemIndex |}
      else
        Normal {| items := set_index (items state) itemIndex
                             (with_quantity item (quantity item - 1)%float) |}
  end.

(** The actions made by [cartSlice.actions]. *)
Inductive CartAction : Type :=
| AddToCart (payload : ItemPayload)
| RemoveFromCart (payload : string).

(** [cartSlice.reducer] on the slice's own actions. *)
Definition reducer (state : CartState) (action : CartAction)
  : completion CartState :=
  match action with
  | AddToCart payload => addToCart state payload
  | RemoveFromCart payload => removeFromCart state payload
  end.

(** A sequence of dispatches, stopped by the first exception. *)
Fixpoint run (state : CartState) (actions : list CartAction)
  : completion CartState :=
  match actions with
  | [] => Normal state
  | action :: rest => state' ← reducer state action; run state' rest
  end.

(** The lookup both reducers start with, by cases. *)
Inductive lookup_spec (i : string) (l : list CartItem) : Z -> Prop :=
| lookup_present l1 item l2 :
    l = l1 ++ item :: l2 ->
    Forall (fun y => id y <> i) l1 ->
    id item = i ->
    lookup_spec i l (Z.of_nat (length l1))
| lookup_absent :
    Forall (fun y => id y <> i) l ->
    lookup_spec i l (-1).

(** The invariant of the cart: identifiers are pairwise distinct and
    every quantity is a whole number from 1 to 2^53. *)
Definition cart_invariant (state : CartState) : Prop :=
  NoDup (id <$> items state)
  /\ Forall (fun item => counted (quantity item)) (items state).

(** What identifies a line of the cart across transitions: everything but
    its quantity. *)
Definition line (item : CartItem) : string * string * float :=
  (id item, title item, price item).

End Cart.

(** ** The timers reducer *)

Module Timers.

Record Timer : Type := {
  name : string;
  duration : float
}.

Record TimersState : Type := {
  isRunning : bool;
  timers : list Timer
}.

Definition initialState : TimersState :=
  {| isRunning := true; timers := [] |}.

(** An action object as the reducer meets it at run time: a [type] tag
    and a [payload] that may be absent. *)
Record Action : Type := {
  type : string;
  payload : option Timer
}.

(** The three shapes the union type [Action] of the source declares. *)
Definition StartTimersAction : Action :=
  {| type := "START_TIMERS"; payload := None |}.

Definition StopTimersAction : Action :=
  {| type := "STOP_TIMERS"; payload := None |}.

Definition AddTimerAction (timer : Timer) : Action :=
  {| type := "ADD_TIMER"; payload := Some timer |}.

Inductive declared : Action -> Prop :=
| declared_start : declared StartTimersAction
| declared_stop : declared StopTimersAction
| declared_add timer : declared (AddTimerAction timer).

(** The discriminants of the declared action kinds. *)
Definition declared_kinds : list string :=
  ["START_TIMERS"; "STOP_TIMERS"; "ADD_TIMER"].

(** [{...state, isRunning: b}] *)
Definition with_isRunning (state : TimersState) (b : bool) : TimersState :=
  {| isRunning := b; timers := timers state |}.

(** [{...state, timers: ts}] *)
Definition with_timers (state : TimersState) (ts : list Timer)
  : TimersState :=
  {| isRunning := isRunning state; timers := ts |}.

Definition timersReducer (state : TimersState) (action : Action)
  : completion TimersState :=
  if String.eqb (type action) "START_TIMERS" then
    Normal (with_isRunning state true)
  else if String.eqb (type action) "STOP_TIMERS" then
    Normal (with_isRunning state false)
  else if String.eqb (type action) "ADD_TIMER" then
    match payload action with
    | None => Throw TypeError
    | Some p =>
        Normal (with_timers state
                  (timers state ++ [ {| name := name p;
                                        duration := duration p |} ]))
    end
  else
    Normal state.

(** A sequence of dispatches, stopped by the first exception. *)
Fixpoint run (state : TimersState) (actions : list Action)
  : completion TimersState :=
  match actions with
  | [] => Normal state
  | action :: rest => state' ← timersReducer state action; run state' rest
  end.

End Timers.

(** ** The fetch helper *)

Module Http.

(** What [get] sees of a [Response]: its [ok] flag and what [json()]
    settles to, the parsed body or the exception of the parse. *)
Record Response (Body : Type) : Type := {
  ok : bool;
  json : completion Body
}.

Arguments ok {Body} r.
Arguments json {Body} r.

(** The environment of [fetch]: what the [n]-th request of the session,
    sent to [url], settles to: a response, or a rejection when no
    response could be had. *)
Definition Server (Body : Type) : Type :=
  string -> nat -> completion (Response Body).

(** [fetch(url)], threading the number of requests sent so far. *)
Definition fetch {Body : Type} (server : Server Body) (url : string)
    (sent : nat) : completion (Response Body) * nat :=
  (server url sent, S sent).

(** [get] is [async]: awaiting a rejected promise throws, and the promise
    [get] returns settles as the promise of [response.json()] does. *)
Definition get {Body : Type} (server : Server Body) (url : string)
    (sent : nat) : completion Body * nat :=
  let (settled, sent') := fetch server url sent in
  (response ← settled;
   if negb (ok response) then
     Throw (Error "Failed to fetch data.")
   else
     json response,
   sent').

End Http.

(** ** The cart component *)

Module CartItems.

(** [state.cart.items.reduce((val, item) => item.quantity + val, 0)] *)
Definition totalQuantity (state : Cart.CartState) : float :=
  foldl (fun val item => (Cart.quantity item + val)%float) 0%float
    (Cart.items state).

(** The payload [addToCart(item)] carries when it is handed a whole cart
    item: the reducer reads its [id], and spreads it under [quantity: 1],
    which overwrites the quantity the item came with. *)
Definition item_payload (item : Cart.CartItem) : Cart.ItemPayload :=
  {| Cart.payload_id := Cart.id item;
     Cart.payload_title := Cart.title item;
     Cart.payload_price := Cart.price item |}.

(** [dispatch(addToCart(item))], the [+] button of a line. *)
Definition handleAddToCart (state : Cart.CartState) (item : Cart.CartItem)
  : completion Cart.CartState :=
  Cart.reducer state (Cart.AddToCart (item_payload item)).

(** [dispatch(removeFromCart(id))], the [-] button of a line. *)
Definition handleRemoveFromCart (state : Cart.CartState) (id : string)
  : completion Cart.CartState :=
  Cart.reducer state (Cart.RemoveFromCart id).

End CartItems.

(** ** The timers context *)

Module TimersContext.

(** The methods the provider puts in the context value. *)
Inductive Call : Type :=
| addTimer (timerData : Timers.Timer)
| startTimers
| stopTimers.

(** The action each method dispatches. *)
Definition dispatched (call : Call) : Timers.Action :=
  match call with
  | addTimer timerData =>
      {| Timers.type := "ADD_TIMER"; Timers.payload := Some timerData |}
  | startTimers => {| Timers.type := "START_TIMERS"; Timers.payload := None |}
  | stopTimers => {| Timers.type := "STOP_TIMERS"; Timers.payload := None |}
  end.

(** The state [useReducer] holds after the calls, in their order. *)
Definition after (state : Timers.TimersState) (calls : list Call)
  : completion Timers.TimersState :=
  Timers.run state (dispatched <$> calls).

(** [useTimersContext]: the context value, or an error when the hook is
    used outside the provider. *)
Definition useTimersContext {Value : Type} (timersCtx : option Value)
  : completion Value :=
  match timersCtx with
  | None => Throw (Error "TimersContext is null - that should not be the case!")
  | Some ctx => Normal ctx
  end.

(** The timers the calls add, in their order. *)
Definition added (calls : list Call) : list Timers.Timer :=
  omap (fun call => match call with
                    | addTimer timerData => Some timerData
                    | _ => None
                    end) calls.

(** The run flag the calls leave: that of the last [startTimers] or
    [stopTimers], the flag before them when there is none. *)
Definition running (before : bool) (calls : list Call) : bool :=
  foldl (fun flag call => match call with
                          | addTimer _ => flag
                          | startTimers => true
                          | stopTimers => false
                          end) before calls.

End TimersContext.

(** ** The goal list *)

Module Goals.

Record CourseGoal : Type := {
  title : string;
  description : string;
  id : float
}.

(** The updater of [handleAddGoal]; [random] is what [Math.random()]
    gave. *)
Definition handleAddGoal (random : float) (goal summary : string)
    (prevGoals : list CourseGoal) : list CourseGoal :=
  prevGoals ++ [ {| id := random; title := goal; description := summary |} ].

(** [a !== b] on two numbers. *)
Definition strict_ne (a b : float) : bool := negb (PrimFloat.eqb a b).

(** The updater of [handleDeleteGoal]. *)
Definition handleDeleteGoal (i : float) (prevGoals : list CourseGoal)
  : list CourseGoal :=
  List.filter (fun goal => strict_ne (id goal) i) prevGoals.

End Goals.

(** ** The component that loads the posts *)

Module Posts.

Record RawDataBlogPost : Type := {
  id : float;
  userId : float;
  title : string;
  body : string
}.

Record BlogPost : Type := {
  post_id : float;
  post_title : string;
  text : string
}.

(** The three pieces of state of [App]. *)
Record AppState : Type := {
  fetchedPosts : list BlogPost;
  isFetching : bool;
  error : option string
}.

Definition initialState : AppState :=
  {| fetchedPosts := []; isFetching := false; error := None |}.

Definition setFetchedPosts (state : AppState) (posts : list BlogPost)
  : AppState :=
  {| fetchedPosts := posts; isFetching := isFetching state;
     error := error state |}.

Definition setIsFetching (state : AppState) (flag : bool) : AppState :=
  {| fetchedPosts := fetchedPosts state; isFetching := flag;
     error := error state |}.

Definition setError (state : AppState) (message : string) : AppState :=
  {| fetchedPosts := fetchedPosts state; isFetching := isFetching state;
     error := Some message |}.

Definition toBlogPost (rawPost : RawDataBlogPost) : BlogPost :=
  {| post_id := id rawPost; post_title := title rawPost;
     text := body rawPost |}.

(** [error.message].  The text of an error the engine raises is the
    engine's own, [engine] gives it. *)
Definition message (engine : JsError -> string) (e : JsError) : string :=
  match e with
  | Error m => m
  | _ => engine e
  end.

Definition url : string := "https://jsonplaceholder.typicode.com/posts".

(** [fetchPosts], on the state it starts from.  Every exception of the
    embedding is an [Error], so the [instanceof] test of the handler
    holds. *)
Definition fetchPosts (engine : JsError -> string)
    (server : Http.Server (list RawDataBlogPost)) (sent : nat)
    (state : AppState) : AppState * nat :=
  let state := setIsFetching state true in
  let (data, sent') := Http.get server url sent in
  let state :=
    match data with
    | Normal data => setFetchedPosts state (toBlogPost <$> data)
    | Throw e => setError state (message engine e)
    end in
  (setIsFetching state false, sent').

(** What [App] can put on the screen. *)
Inductive Content : Type :=
| ErrorMessage (text : string)
| BlogPosts (posts : list BlogPost)
| LoadingFallback.

(** [if (error)]: [undefined] and the empty string are falsy. *)
Definition truthy_string (s : option string) : bool :=
  match s with
  | None => false
  | Some s => negb (String.eqb s "")
  end.

(** [if (fetchedPosts)]: an array is an object, and every object is
    truthy, the empty array too. *)
Definition truthy_array {A : Type} (l : list A) : bool := true.

(** The [content] the render ends with; [None] is [undefined]. *)
Definition content (state : AppState) : option Content :=
  let content := None in
  let content :=
    if truthy_string (error state) then ErrorMessage <$> error state
    else content in
  let content :=
    if truthy_array (fetchedPosts state)
    then Some (BlogPosts (fetchedPosts state))
    else content in
  let content :=
    if isFetching state then Some LoadingFallback else content in
  content.

End Posts.

(** ** [get] with a schema *)

Module Validated.

(** [get(url, zodSchema)]: [parse] is [zodSchema.parse], which returns
    the validated value or throws. *)
Definition get {Body T : Type} (server : Http.Server Body)
    (parse : Body -> completion T) (url : string) (sent : nat)
  : completion T * nat :=
  let (settled, sent') := Http.fetch server url sent in
  (response ← settled;
   if negb (Http.ok response) then
     Throw (Error "Failed to fetch data.")
   else
     data ← Http.json response;
     match parse data with
     | Normal value => Normal value
     | Throw _ => Throw (Error "Invalid data received from server.")
     end,
   sent').

End Validated.

(** ** [merge] *)

Module FirstApp.

(** An object as [merge] sees it: its own properties by name. *)
Definition merge {Value : Type} (a b : gmap string Value)
  : gmap string Value :=
  b ∪ a.

End FirstApp.

(** * Properties *)

(** ** Binary64 arithmetic on whole numbers *)

Section Binary64.

Lemma digits2_pos_bounds p :
  2 ^ (Zpos (digits2_pos p) - 1) <= Zpos p < 2 ^ Zpos (digits2_pos p).
Proof.
  induction p as [p IH | p IH |]; cbn [digits2_pos].
  - rewrite Pos2Z.inj_succ.
    replace (Z.succ (Zpos (digits2_pos p)) - 1)
      with (Z.succ (Zpos (digits2_pos p) - 1)) by lia.
    rewrite !Z.pow_succ_r by lia. lia.
  - rewrite Pos2Z.inj_succ.
    replace (Z.succ (Zpos (digits2_pos p)) - 1)
      with (Z.succ (Zpos (digits2_pos p) - 1)) by lia.
    rewrite !Z.pow_succ_r by lia. lia.
  - simpl. lia.
Qed.

Lemma digits2_pos_log2 p : Zpos (digits2_pos p) = Z.log2 (Zpos p) + 1.
Proof.
  pose proof (digits2_pos_bounds p) as H.
  rewrite (Z.log2_unique (Zpos p) (Zpos (digits2_pos p) - 1)); [lia | lia |].
  by replace (Z.succ (Zpos (digits2_pos p) - 1))
    with (Zpos (digits2_pos p)) by lia.
Qed.

Lemma iter_xO_Z m d : Zpos (Pos.iter xO m d) = Zpos m * 2 ^ Zpos d.
Proof.
  induction d as [|d IH] using Pos.peano_ind.
  - simpl. lia.
  - rewrite Pos.iter_succ, Pos2Z.inj_succ, Z.pow_succ_r by lia.
    rewrite Pos2Z.inj_xO, IH. lia.
Qed.

Lemma iter_pos_comm {A : Type} (f : A -> A) p : forall x,
  SpecFloat.iter_pos f p (f x) = f (SpecFloat.iter_pos f p x).
Proof.
  induction p as [p IH | p IH |]; intros x; cbn [SpecFloat.iter_pos].
  - by rewrite !IH.
  - by rewrite !IH.
  - reflexivity.
Qed.

Lemma iter_pos_succ {A : Type} (f : A -> A) p : forall x,
  SpecFloat.iter_pos f (Pos.succ p) x = SpecFloat.iter_pos f p (f x).
Proof.
  induction p as [p IH | p IH |]; intros x; simpl.
  - by rewrite !IH, (iter_pos_comm f p (f x)).
  - reflexivity.
  - reflexivity.
Qed.

Lemma shr_exact d : forall q,
  SpecFloat.iter_pos shr_1 d
    {| shr_m := Zpos (Pos.iter xO q d); shr_r := false; shr_s := false |}
  = {| shr_m := Zpos q; shr_r := false; shr_s := false |}.
Proof.
  induction d as [|d IH] using Pos.peano_ind; intros q.
  - reflexivity.
  - rewrite iter_pos_succ, Pos.iter_succ. cbn [shr_1 orb]. apply IH.
Qed.

Lemma round_canonical q e :
  Zpos (digits2_pos q) = 53 ->
  -1074 <= e <= 971 ->
  binary_round_aux prec emax false (Zpos q) e loc_Exact
  = S754_finite false q e.
Proof.
  intros Hd He. unfold binary_round_aux, shr_fexp.
  cbn [Zdigits2 shr_record_of_loc]. rewrite Hd.
  unfold fexp, SpecFloat.emin, prec, emax.
  replace (Z.max (53 + e - 53) (3 - 1024 - 53) - e) with 0 by lia.
  cbn [shr shr_m loc_of_shr_record round_nearest_even Zdigits2
         shr_record_of_loc].
  rewrite Hd.
  replace (Z.max (53 + e - 53) (3 - 1024 - 53) - e) with 0 by lia.
  cbn [shr shr_m].
  by rewrite (proj2 (Z.leb_le e (1024 - 53))) by lia.
Qed.

Lemma digits2_pos_iter q s :
  Zpos (digits2_pos (Pos.iter xO q s)) = Zpos (digits2_pos q) + Zpos s.
Proof.
  rewrite !digits2_pos_log2, iter_xO_Z.
  rewrite Z.log2_mul_pow2 by lia. lia.
Qed.

Lemma round_shifted q s e :
  Zpos (digits2_pos q) = 53 ->
  -1074 <= e + Zpos s <= 971 ->
  binary_round_aux prec emax false (Zpos (Pos.iter xO q s)) e loc_Exact
  = S754_finite false q (e + Zpos s).
Proof.
  intros Hd He. unfold binary_round_aux, shr_fexp at 1.
  cbn [Zdigits2 shr_record_of_loc]. rewrite digits2_pos_iter, Hd.
  unfold fexp at 1, SpecFloat.emin, prec, emax.
  replace (Z.max (53 + Zpos s + e - 53) (3 - 1024 - 53) - e)
    with (Zpos s) by lia.
  cbn [shr]. rewrite shr_exact.
  cbn [shr_m loc_of_shr_record round_nearest_even].
  unfold shr_fexp. cbn [Zdigits2 shr_record_of_loc]. rewrite Hd.
  unfold fexp, SpecFloat.emin.
  replace (Z.max (53 + (e + Zpos s) - 53) (3 - 1024 - 53) - (e + Zpos s))
    with 0 by lia.
  cbn [shr shr_m].
  by rewrite (proj2 (Z.leb_le (e + Zpos s) (1024 - 53))) by lia.
Qed.

Lemma normalize_scaled c j :
  1 <= c < 2 ^ 53 ->
  0 <= j <= 52 ->
  binary_normalize prec emax (c * 2 ^ j) (- j) false = canonical c.
Proof.
  intros Hc Hj. unfold canonical.
  set (k := Z.log2 c).
  assert (Hk : 0 <= k <= 52).
  { split; [apply Z.log2_nonneg |].
    enough (k < 53) by lia. apply Z.log2_lt_pow2; lia. }
  assert (Hq : 0 < c * 2 ^ (52 - k)).
  { apply Z.mul_pos_pos; [lia | apply Z.pow_pos_nonneg; lia]. }
  set (q := Z.to_pos (c * 2 ^ (52 - k))).
  assert (Hqz : Zpos q = c * 2 ^ (52 - k)) by (unfold q; lia).
  assert (Hdq : Zpos (digits2_pos q) = 53).
  { rewrite digits2_pos_log2, Hqz, Z.log2_mul_pow2 by lia. fold k. lia. }
  assert (Hp : 0 < c * 2 ^ j).
  { apply Z.mul_pos_pos; [lia | apply Z.pow_pos_nonneg; lia]. }
  destruct (c * 2 ^ j) as [|p|p] eqn:Hpz; try lia.
  unfold binary_normalize, binary_round.
  assert (Hdp : Zpos (digits2_pos p) = j + k + 1).
  { rewrite digits2_pos_log2, <- Hpz, Z.log2_mul_pow2 by lia. fold k. lia. }
  rewrite Hdp. unfold fexp at 1, SpecFloat.emin, prec, emax.
  replace (Z.max (j + k + 1 + - j - 53) (3 - 1024 - 53)) with (k - 52) by lia.
  unfold shl_align.
  destruct (k - 52 - - j) as [|s|d] eqn:Hs.
  - assert (p = q) as ->.
    { apply Pos2Z.inj. rewrite Hqz, <- Hpz. do 2 f_equal. lia. }
    replace (- j) with (k - 52) by lia.
    apply round_canonical; [done | lia].
  - assert (p = Pos.iter xO q s) as ->.
    { apply Pos2Z.inj. rewrite iter_xO_Z, Hqz, <- Hpz, <- Z.mul_assoc.
      rewrite <- Z.pow_add_r by lia. do 2 f_equal. lia. }
    replace (k - 52) with (- j + Zpos s) by lia.
    apply round_shifted; [done | lia].
  - assert (Pos.iter xO p d = q) as ->.
    { apply Pos2Z.inj. rewrite iter_xO_Z, Hqz, <- Hpz, <- Z.mul_assoc.
      rewrite <- Z.pow_add_r by lia. do 2 f_equal. lia. }
    apply round_canonical; [done | lia].
Qed.

Lemma Prim2SF_double n :
  1 <= n < 2 ^ 53 -> Prim2SF (double n) = canonical n.
Proof.
  intros Hn. unfold double. rewrite of_uint63_spec, of_Z_spec.
  rewrite Z.mod_small.
  - rewrite <- (normalize_scaled n 0) by lia.
    by rewrite Z.pow_0_r, Z.mul_1_r.
  - change wB with 9223372036854775808.
    change (2 ^ 53) with 9007199254740992 in Hn. lia.
Qed.

Lemma log2_range n : 1 <= n < 2 ^ 53 -> 0 <= Z.log2 n <= 52.
Proof.
  intros Hn. split; [apply Z.log2_nonneg |].
  enough (Z.log2 n < 53) by lia. apply Z.log2_lt_pow2; lia.
Qed.

(** The mantissa of a canonical number, brought to a smaller exponent. *)
Lemma canonical_aligned n j e :
  1 <= n < 2 ^ 53 ->
  0 <= j <= Z.log2 n ->
  e = j - 52 ->
  Zpos (fst (shl_align (Z.to_pos (n * 2 ^ (52 - Z.log2 n)))
                       (Z.log2 n - 52) e))
  = n * 2 ^ (52 - j).
Proof.
  intros Hn Hj ->. pose proof (log2_range n Hn) as Hk.
  set (k := Z.log2 n) in *.
  assert (Hq : 0 < n * 2 ^ (52 - k)).
  { apply Z.mul_pos_pos; [lia | apply Z.pow_pos_nonneg; lia]. }
  unfold shl_align. destruct (j - 52 - (k - 52)) as [|s|d] eqn:Hs; cbn [fst].
  - rewrite Z2Pos.id by done. do 2 f_equal. lia.
  - lia.
  - rewrite iter_xO_Z, Z2Pos.id, <- Z.mul_assoc, <- Z.pow_add_r by lia.
    do 2 f_equal. lia.
Qed.

(** Addition is exact on the integers, as long as the sum is below
    2^53. *)
Lemma double_add a b :
  1 <= a -> 1 <= b -> a + b < 2 ^ 53 ->
  (double a + double b)%float = double (a + b).
Proof.
  intros Ha Hb Hab. apply Prim2SF_inj.
  rewrite FloatAxioms.add_spec, !Prim2SF_double by lia.
  pose proof (log2_range a ltac:(lia)) as Hka.
  pose proof (log2_range b ltac:(lia)) as Hkb.
  unfold canonical at 1 2. unfold SF64add, SFadd. cbn [cond_Zopp].
  set (j := Z.min (Z.log2 a) (Z.log2 b)).
  replace (Z.min (Z.log2 a - 52) (Z.log2 b - 52)) with (- (52 - j))
    by (unfold j; lia).
  rewrite (canonical_aligned a j), (canonical_aligned b j)
    by (unfold j; lia).
  rewrite <- Z.mul_add_distr_r.
  apply normalize_scaled; unfold j; lia.
Qed.

Lemma double_zero : double 0 = 0%float.
Proof. reflexivity. Qed.

(** The same with a summand that may be 0. *)
Lemma double_plus a b :
  1 <= a -> 0 <= b -> a + b < 2 ^ 53 ->
  (double a + double b)%float = double (a + b).
Proof.
  intros Ha Hb Hab. destruct (decide (b = 0)) as [-> | Hne].
  - rewrite Z.add_0_r. apply Prim2SF_inj.
    rewrite FloatAxioms.add_spec, Prim2SF_double by lia. reflexivity.
  - apply double_add; lia.
Qed.

Lemma double_sub_one n :
  2 <= n < 2 ^ 53 -> (double n - double 1)%float = double (n - 1).
Proof.
  intros Hn. apply Prim2SF_inj.
  rewrite FloatAxioms.sub_spec, !Prim2SF_double by lia.
  pose proof (log2_range n ltac:(lia)) as Hk.
  unfold canonical at 1 2. unfold SF64sub, SFsub. cbn [cond_Zopp].
  change (Z.log2 1) with 0.
  replace (Z.min (Z.log2 n - 52) (0 - 52)) with (- 52) by lia.
  rewrite (canonical_aligned n 0) by lia.
  change (fst (shl_align (Z.to_pos (1 * 2 ^ (52 - 0))) (0 - 52) (-52)))
    with (Z.to_pos (2 ^ 52)).
  replace (n * 2 ^ (52 - 0) - Zpos (Z.to_pos (2 ^ 52)))
    with ((n - 1) * 2 ^ 52) by (rewrite Z2Pos.id by done; lia).
  apply (normalize_scaled (n - 1) 52); lia.
Qed.

Lemma double_one : double 1 = 1%float.
Proof. reflexivity. Qed.

Lemma double_top : double (2 ^ 53) = 9007199254740992%float.
Proof. reflexivity. Qed.

(** [++] on a whole number: exact below 2^53. *)
Lemma double_incr n :
  1 <= n < 2 ^ 53 -> (double n + 1)%float = double (n + 1).
Proof.
  intros Hn. destruct (decide (n + 1 < 2 ^ 53)) as [Hlt | Hge].
  - rewrite <- double_one. apply double_add; lia.
  - replace n with 9007199254740991
      by (change (2 ^ 53) with 9007199254740992 in *; lia).
    reflexivity.
Qed.

(** [--] on a whole number: exact from 2 to 2^53. *)
Lemma double_decr n :
  2 <= n <= 2 ^ 53 -> (double n - 1)%float = double (n - 1).
Proof.
  intros Hn. destruct (decide (n < 2 ^ 53)) as [Hlt | Hge].
  - rewrite <- double_one. apply double_sub_one; lia.
  - replace n with 9007199254740992
      by (change (2 ^ 53) with 9007199254740992 in *; lia).
    reflexivity.
Qed.

(** [=== 1] on a whole number. *)
Lemma double_eqb_one n :
  1 <= n <= 2 ^ 53 -> (double n =? 1)%float = (n =? 1).
Proof.
  intros Hn. destruct (decide (n = 1)) as [-> | Hne]; [reflexivity |].
  rewrite (proj2 (Z.eqb_neq n 1)) by done.
  destruct (decide (n < 2 ^ 53)) as [Hlt | Hge].
  - rewrite FloatAxioms.eqb_spec, Prim2SF_double by lia.
    assert (Hk : 1 <= Z.log2 n) by (apply Z.log2_le_pow2; lia).
    change (Prim2SF 1%float) with (S754_finite false 4503599627370496 (-52)).
    unfold SFeqb, SFcompare, canonical.
    by rewrite (proj2 (Z.compare_gt_iff _ _)) by lia.
  - replace n with 9007199254740992
      by (change (2 ^ 53) with 9007199254740992 in *; lia).
    reflexivity.
Qed.

Lemma counted_leb x : counted x -> (1 <=? x)%float = true.
Proof.
  intros (n & Hn & ->).
  destruct (decide (n = 1)) as [-> | Hne]; [reflexivity |].
  destruct (decide (n < 2 ^ 53)) as [Hlt | Hge].
  - rewrite FloatAxioms.leb_spec, Prim2SF_double by lia.
    assert (Hk : 1 <= Z.log2 n) by (apply Z.log2_le_pow2; lia).
    change (Prim2SF 1%float) with (S754_finite false 4503599627370496 (-52)).
    unfold SFleb, SFcompare, canonical.
    by rewrite (proj2 (Z.compare_lt_iff _ _)) by lia.
  - replace n with 9007199254740992
      by (change (2 ^ 53) with 9007199254740992 in *; lia).
    reflexivity.
Qed.

Lemma counted_eqb_zero x : counted x -> (x =? 0)%float = false.
Proof.
  intros (n & Hn & ->).
  destruct (decide (n < 2 ^ 53)) as [Hlt | Hge].
  - rewrite FloatAxioms.eqb_spec, Prim2SF_double by lia. reflexivity.
  - replace n with 9007199254740992
      by (change (2 ^ 53) with 9007199254740992 in *; lia).
    reflexivity.
Qed.

Lemma counted_one : counted 1%float.
Proof. exists 1. split; [change (2 ^ 53) with 9007199254740992; lia | done]. Qed.

(** [++] keeps a counter a counter: at 2^53 it stays where it is. *)
Lemma counted_incr x : counted x -> counted (x + 1)%float.
Proof.
  intros (n & Hn & ->).
  destruct (decide (n < 2 ^ 53)) as [Hlt | Hge].
  - exists (n + 1). split; [lia | apply double_incr; lia].
  - exists n. split; [done |].
    replace n with 9007199254740992
      by (change (2 ^ 53) with 9007199254740992 in *; lia).
    reflexivity.
Qed.

(** [--] keeps a counter that is not 1 a counter. *)
Lemma counted_decr x :
  counted x -> (x =? 1)%float = false -> counted (x - 1)%float.
Proof.
  intros (n & Hn & ->) Hone. rewrite double_eqb_one in Hone by done.
  apply Z.eqb_neq in Hone.
  exists (n - 1). split; [lia | apply double_decr; lia].
Qed.

(** [double] is what it says: the number of the integer. *)
Lemma integer_value_double n :
  1 <= n < 2 ^ 53 -> integer_value (double n) = Some n.
Proof.
  intros Hn. unfold integer_value. rewrite Prim2SF_double by done.
  pose proof (log2_range n Hn) as Hk. unfold canonical. cbn [cond_Zopp].
  assert (Hq : 0 < n * 2 ^ (52 - Z.log2 n)).
  { apply Z.mul_pos_pos; [lia | apply Z.pow_pos_nonneg; lia]. }
  rewrite Z2Pos.id by done.
  destruct (Z.leb_spec 0 (Z.log2 n - 52)) as [He | He].
  - replace (Z.log2 n - 52) with 0 by lia.
    replace (52 - Z.log2 n) with 0 by lia. f_equal. lia.
  - replace (- (Z.log2 n - 52)) with (52 - Z.log2 n) by lia.
    rewrite Z.mod_mul, Z.div_mul by (apply Z.pow_nonzero; lia).
    reflexivity.
Qed.

End Binary64.

(** ** Arrays *)

Section ArrayFacts.
Context {A : Type}.
Implicit Types (p : A -> bool) (l : list A).

Lemma findIndex_from_shift p l i :
  findIndex_from p l i = -1 /\ Forall (fun y => p y = false) l
  \/ exists l1 x l2,
      l = l1 ++ x :: l2 /\ Forall (fun y => p y = false) l1 /\ p x = true
      /\ findIndex_from p l i = i + Z.of_nat (length l1).
Proof.
  revert i. induction l as [|x l IH]; intros i; simpl.
  - left. split; [reflexivity | constructor].
  - destruct (p x) eqn:Hx.
    + right. exists [], x, l. simpl. repeat split; [constructor | done | lia].
    + destruct (IH (i + 1)) as [[Hm Hall] | (l1 & y & l2 & -> & Hall & Hy & Hi)].
      * left. split; [done | by constructor].
      * right. exists (x :: l1), y, l2. simpl.
        repeat split; [by constructor | done | lia].
Qed.

Lemma findIndexP p l : findIndex_spec p l (findIndex p l).
Proof.
  unfold findIndex.
  destruct (findIndex_from_shift p l 0)
    as [[-> Hall] | (l1 & x & l2 & Hl & Hall & Hx & ->)].
  - by apply findIndex_none.
  - rewrite Z.add_0_l. by eapply findIndex_found.
Qed.

Lemma at_index_negative l i : i < 0 -> at_index l i = None.
Proof. unfold at_index. intros H. by rewrite (proj2 (Z.ltb_lt _ _) H). Qed.

Lemma at_index_nat l (k : nat) : at_index l (Z.of_nat k) = l !! k.
Proof.
  unfold at_index. rewrite (proj2 (Z.ltb_ge _ _)) by lia.
  by rewrite Nat2Z.id.
Qed.

Lemma at_index_middle l1 x l2 :
  at_index (l1 ++ x :: l2) (Z.of_nat (length l1)) = Some x.
Proof. rewrite at_index_nat. by rewrite list_lookup_middle. Qed.

Lemma set_index_middle l1 x l2 y :
  set_index (l1 ++ x :: l2) (Z.of_nat (length l1)) y = l1 ++ y :: l2.
Proof.
  unfold set_index. rewrite Nat2Z.id.
  rewrite insert_app_r_alt by lia. by rewrite Nat.sub_diag.
Qed.

Lemma splice1_middle l1 x l2 :
  splice1 (l1 ++ x :: l2) (Z.of_nat (length l1)) = l1 ++ l2.
Proof.
  unfold splice1. rewrite (proj2 (Z.ltb_ge _ _)) by lia.
  rewrite length_app. simpl.
  rewrite Z.min_l by lia. rewrite Nat2Z.id.
  induction l1 as [|z l1 IH]; simpl; [done | by rewrite IH].
Qed.

End ArrayFacts.

(** ** Cart *)

Section CartFacts.
Import Cart.
Implicit Types (state : CartState) (item : CartItem) (i : string).

Lemma has_id_true i item : has_id i item = true <-> id item = i.
Proof. apply String.eqb_eq. Qed.

Lemma has_id_false i item : has_id i item = false <-> id item <> i.
Proof. apply String.eqb_neq. Qed.

Lemma Forall_has_id_false i (l : list CartItem) :
  Forall (fun y => has_id i y = false) l -> Forall (fun y => id y <> i) l.
Proof.
  intros H. eapply Forall_impl; [exact H |]. intros y. apply has_id_false.
Qed.

Lemma lookupP i (l : list CartItem) : lookup_spec i l (findIndex (has_id i) l).
Proof.
  destruct (findIndexP (has_id i) l) as [l1 x l2 Hl Hall Hx | Hall].
  - eapply lookup_present; [done | by apply Forall_has_id_false |].
    by apply has_id_true.
  - apply lookup_absent. by apply Forall_has_id_false.
Qed.

Lemma Forall_id_ne_not_elem i (l : list CartItem) :
  Forall (fun y => id y <> i) l <-> i ∉ (id <$> l).
Proof.
  rewrite Forall_forall, list_elem_of_fmap. split.
  - intros H (y & -> & Hy). by apply (H y).
  - intros H y Hy Hid. apply H. by exists y.
Qed.

(** [addToCart], by cases on the lookup. *)
Lemma addToCart_cases state payload :
  (exists l1 item l2,
      items state = l1 ++ item :: l2
      /\ Forall (fun y => id y <> payload_id payload) l1
      /\ id item = payload_id payload
      /\ addToCart state payload
         = Normal {| items :=
                       l1 ++ with_quantity item (quantity item + 1)%float :: l2 |})
  \/ (Forall (fun y => id y <> payload_id payload) (items state)
      /\ addToCart state payload
         = Normal {| items := items state ++ [new_item payload] |}).
Proof.
  unfold addToCart.
  destruct (lookupP (payload_id payload) (items state))
    as [l1 item l2 Hl Hall Hid | Hall].
  - left. exists l1, item, l2. repeat split; try done.
    rewrite (proj2 (Z.geb_le _ _)) by lia.
    by rewrite Hl, at_index_middle, set_index_middle.
  - right. split; [done |]. reflexivity.
Qed.

(** [removeFromCart], by cases on the lookup. *)
Lemma removeFromCart_cases state i :
  (exists l1 item l2,
      items state = l1 ++ item :: l2
      /\ Forall (fun y => id y <> i) l1
      /\ id item = i
      /\ removeFromCart state i
         = Normal {| items :=
                       if (quantity item =? 1)%float then l1 ++ l2
                       else l1 ++ with_quantity item (quantity item - 1)%float
                               :: l2 |})
  \/ (Forall (fun y => id y <> i) (items state)
      /\ removeFromCart state i = Throw TypeError).
Proof.
  unfold removeFromCart.
  destruct (lookupP i (items state)) as [l1 item l2 Hl Hall Hid | Hall].
  - left. exists l1, item, l2. repeat split; try done.
    rewrite Hl, at_index_middle, set_index_middle, splice1_middle.
    by destruct (quantity item =? 1)%float.
  - right. split; [done |]. by rewrite at_index_negative.
Qed.

Lemma addToCart_returns state payload : returns (addToCart state payload).
Proof.
  destruct (addToCart_cases state payload)
    as [(l1 & item & l2 & _ & _ & _ & ->) | [_ ->]]; by eexists.
Qed.

Lemma removeFromCart_absent state i :
  i ∉ (id <$> items state) -> removeFromCart state i = Throw TypeError.
Proof.
  intros Hi. apply Forall_id_ne_not_elem in Hi.
  destruct (removeFromCart_cases state i)
    as [(l1 & item & l2 & Hl & _ & Hid & _) | [_ H]]; [| done].
  exfalso. rewrite Hl in Hi. apply Forall_app in Hi as [_ Hi].
  by inversion Hi.
Qed.

Lemma removeFromCart_present state i :
  i ∈ (id <$> items state) -> returns (removeFromCart state i).
Proof.
  intros Hi.
  destruct (removeFromCart_cases state i)
    as [(l1 & item & l2 & _ & _ & _ & ->) | [Hall _]]; [by eexists |].
  by apply Forall_id_ne_not_elem in Hall.
Qed.

(** [removeFromCart] throws exactly when no item has the identifier. *)
Lemma removeFromCart_throws_iff state i :
  throws (removeFromCart state i) <-> i ∉ (id <$> items state).
Proof.
  split.
  - intros [e He] Hi. apply removeFromCart_present in Hi as [s' Hs'].
    congruence.
  - intros Hi. exists TypeError. by apply removeFromCart_absent.
Qed.

(** C1, as the code has it: ADD_ITEM on an identifier the cart holds
    replaces the quantity of the (first) item with that identifier by the
    binary64 sum [quantity + 1], every other field and every other item as
    before; the sum is the quantity raised by exactly 1 whenever the
    quantity is a whole number from 1 to 2^53 - 1.  On an identifier the
    cart does not hold, ADD_ITEM appends the item
    [{id; title; price; quantity: 1}] at the end. *)
Theorem addToCart_spec state payload :
  (exists l1 item l2,
      items state = l1 ++ item :: l2
      /\ Forall (fun y => id y <> payload_id payload) l1
      /\ id item = payload_id payload
      /\ addToCart state payload
         = Normal {| items :=
                       l1 ++ {| id := id item; title := title item;
                                price := price item;
                                quantity := (quantity item + 1)%float |}
                          :: l2 |}
      /\ forall n,
          1 <= n < 2 ^ 53 ->
          quantity item = double n ->
          (quantity item + 1)%float = double (n + 1))
  \/ ((payload_id payload ∉ (id <$> items state))
      /\ addToCart state payload
         = Normal {| items :=
                       items state
                       ++ [ {| id := payload_id payload;
                               title := payload_title payload;
                               price := payload_price payload;
                               quantity := 1%float |} ] |}).
Proof.
  destruct (addToCart_cases state payload)
    as [(l1 & item & l2 & Hl & Hall & Hid & Hadd) | [Hall Hadd]].
  - left. exists l1, item, l2. repeat split; try done.
    intros n Hn ->. by apply double_incr.
  - right. split; [by apply Forall_id_ne_not_elem | done].
Qed.

Lemma addToCart_spec_witness :
  let state := {| items := [ {| id := "a"; title := "Widget";
                                price := 9.5%float; quantity := 2%float |} ] |} in
  let payload := {| payload_id := "a"; payload_title := "Widget";
                    payload_price := 9.5%float |} in
  addToCart state payload
  = Normal {| items := [ {| id := "a"; title := "Widget";
                            price := 9.5%float; quantity := double 3 |} ] |}.
Proof.
  intros state payload.
  destruct (addToCart_spec state payload)
    as [(l1 & item & l2 & Hl & Hall & Hid & Hadd & Hexact) | [Habsent _]].
  - rewrite Hadd. destruct l1 as [|y l1]; simpl in Hl.
    + injection Hl as <- <-.
      rewrite (Hexact 2); [reflexivity | | reflexivity].
      change (2 ^ 53) with 9007199254740992. lia.
    + injection Hl as _ Hl. by destruct l1.
  - exfalso. apply Habsent. simpl. apply list_elem_of_here.
Defined.

(** C1, as the claim has it, fails: on a line whose quantity is 2^53,
    ADD_ITEM leaves the quantity at 2^53. *)
Lemma addToCart_at_2_53 :
  let item := {| id := "a"; title := "Widget"; price := 9.5%float;
                 quantity := 9007199254740992%float |} in
  let payload := {| payload_id := "a"; payload_title := "Widget";
                    payload_price := 9.5%float |} in
  integer_value (quantity item) = Some 9007199254740992
  /\ exists item',
      addToCart {| items := [item] |} payload = Normal {| items := [item'] |}
      /\ integer_value (quantity item') = Some 9007199254740992
      /\ integer_value (quantity item') <> Some (9007199254740992 + 1).
Proof.
  intros item payload. split; [reflexivity |].
  exists item. split; [reflexivity |]. split; [reflexivity |]. discriminate.
Qed.

(** C2, as the code has it: REMOVE_ITEM on an identifier the cart holds
    deletes the (first) item with that identifier when its quantity
    [=== 1], and otherwise replaces its quantity by the binary64
    difference [quantity - 1]; on a whole number from 1 to 2^53 the test
    holds for 1 only, and from 2 to 2^53 the difference is the quantity
    lowered by exactly 1. *)
Theorem removeFromCart_spec state i :
  i ∈ (id <$> items state) ->
  exists l1 item l2,
    items state = l1 ++ item :: l2
    /\ Forall (fun y => id y <> i) l1
    /\ id item = i
    /\ removeFromCart state i
       = Normal {| items :=
                     if (quantity item =? 1)%float then l1 ++ l2
                     else l1 ++ {| id := id item; title := title item;
                                   price := price item;
                                   quantity := (quantity item - 1)%float |}
                             :: l2 |}
    /\ (forall n,
          1 <= n <= 2 ^ 53 ->
          quantity item = double n ->
          (quantity item =? 1)%float = (n =? 1))
    /\ (forall n,
          2 <= n <= 2 ^ 53 ->
          quantity item = double n ->
          (quantity item - 1)%float = double (n - 1)).
Proof.
  intros Hi.
  destruct (removeFromCart_cases state i)
    as [(l1 & item & l2 & Hl & Hall & Hid & Hrem) | [Hall _]].
  - exists l1, item, l2. repeat split; try done.
    + intros n Hn ->. by apply double_eqb_one.
    + intros n Hn ->. by apply double_decr.
  - by apply Forall_id_ne_not_elem in Hall.
Qed.

Lemma removeFromCart_spec_witness :
  let state := {| items := [ {| id := "a"; title := "Widget";
                                price := 9.5%float; quantity := 2%float |};
                             {| id := "b"; title := "Gadget";
                                price := 4%float; quantity := 1%float |} ] |} in
  "a" ∈ (id <$> items state)
  /\ removeFromCart state "a"
     = Normal {| items := [ {| id := "a"; title := "Widget";
                               price := 9.5%float; quantity := double 1 |};
                            {| id := "b"; title := "Gadget";
                               price := 4%float; quantity := 1%float |} ] |}.
Proof.
  intros state.
  assert (Ha : "a" ∈ (id <$> items state)).
  { simpl. apply list_elem_of_here. }
  split; [exact Ha |].
  destruct (removeFromCart_spec state "a" Ha)
    as (l1 & item & l2 & Hl & Hall & Hid & Hrem & Hone & Hexact).
  rewrite Hrem. destruct l1 as [|y l1]; simpl in Hl.
  - injection Hl as <- <-.
    rewrite (Hone 2), (Hexact 2);
      [reflexivity | | reflexivity | | reflexivity];
      change (2 ^ 53) with 9007199254740992; lia.
  - injection Hl as <- Hl. apply Forall_cons in Hall as [Hy _]. done.
Defined.

(** C2, as the claim has it, fails: on a line whose quantity is 2^53 + 2,
    REMOVE_ITEM brings the quantity to 2^53, which is 2 less. *)
Lemma removeFromCart_above_2_53 :
  let item := {| id := "a"; title := "Widget"; price := 9.5%float;
                 quantity := 9007199254740994%float |} in
  integer_value (quantity item) = Some 9007199254740994
  /\ exists item',
      removeFromCart {| items := [item] |} "a" = Normal {| items := [item'] |}
      /\ integer_value (quantity item') = Some 9007199254740992
      /\ integer_value (quantity item') <> Some (9007199254740994 - 1).
Proof.
  intros item. split; [reflexivity |].
  eexists. split; [reflexivity |]. split; [reflexivity |]. discriminate.
Qed.

(** C10: REMOVE_ITEM on an identifier the cart holds touches one position
    only, that of the (first) item with the identifier.  The items before
    it stay where they are; the item itself is either gone, the items
    after it moving up by one, or still there with its id, title and price,
    the items after it staying where they are. *)
Theorem removeFromCart_frame state i :
  i ∈ (id <$> items state) ->
  exists (k : nat) item state',
    items state !! k = Some item
    /\ id item = i
    /\ removeFromCart state i = Normal state'
    /\ (forall j : nat, (j < k)%nat -> items state' !! j = items state !! j)
    /\ ((length (items state') = (length (items state) - 1)%nat
         /\ forall j : nat,
             (k <= j)%nat -> items state' !! j = items state !! S j)
        \/ ((exists item',
                items state' !! k = Some item'
                /\ id item' = id item
                /\ title item' = title item
                /\ price item' = price item)
            /\ forall j : nat,
                (k < j)%nat -> items state' !! j = items state !! j)).
Proof.
  intros Hi.
  destruct (removeFromCart_cases state i)
    as [(l1 & item & l2 & Hl & Hall & Hid & Hrem) | [Hall _]];
    [| by apply Forall_id_ne_not_elem in Hall].
  exists (length l1), item. eexists. rewrite Hl.
  split; [by rewrite list_lookup_middle |].
  split; [done |]. split; [exact Hrem |]. simpl.
  destruct (quantity item =? 1)%float.
  - split; [intros j Hj; by rewrite !lookup_app_l by lia |].
    left. split.
    + rewrite !length_app. simpl. lia.
    + intros j Hj. rewrite !lookup_app_r by lia.
      by replace (S j - length l1)%nat with (S (j - length l1)) by lia.
  - split; [intros j Hj; by rewrite !lookup_app_l by lia |].
    right. split.
    + eexists. split; [by rewrite list_lookup_middle | done].
    + intros j Hj. rewrite !lookup_app_r by lia.
      destruct (j - length l1)%nat as [|n] eqn:Hn; [lia | done].
Qed.

Lemma removeFromCart_frame_witness :
  let state := {| items := [ {| id := "a"; title := "Widget";
                                price := 9.5%float; quantity := 2%float |};
                             {| id := "b"; title := "Gadget";
                                price := 4%float; quantity := 1%float |} ] |} in
  "a" ∈ (id <$> items state)
  /\ exists (k : nat) item state',
      items state !! k = Some item
      /\ id item = "a"
      /\ removeFromCart state "a" = Normal state'
      /\ (forall j : nat, (j < k)%nat -> items state' !! j = items state !! j)
      /\ ((length (items state') = (length (items state) - 1)%nat
           /\ forall j : nat,
               (k <= j)%nat -> items state' !! j = items state !! S j)
          \/ ((exists item',
                  items state' !! k = Some item'
                  /\ id item' = id item
                  /\ title item' = title item
                  /\ price item' = price item)
              /\ forall j : nat,
                  (k < j)%nat -> items state' !! j = items state !! j)).
Proof.
  intros state.
  assert (Hin : "a" ∈ (id <$> items state)).
  { simpl. apply list_elem_of_here. }
  split; [exact Hin | exact (removeFromCart_frame state "a" Hin)].
Defined.

Lemma addToCart_invariant state payload state' :
  cart_invariant state ->
  addToCart state payload = Normal state' ->
  cart_invariant state'.
Proof.
  intros [Hnodup Hq] Hadd. unfold cart_invariant in *.
  destruct (addToCart_cases state payload)
    as [(l1 & item & l2 & Hl & Hall & Hid & Heq) | [Hall Heq]];
    rewrite Heq in Hadd; injection Hadd as <-; simpl.
  - rewrite Hl in Hnodup, Hq. split.
    + by rewrite fmap_app in *.
    + apply Forall_app in Hq as [Hq1 Hq2].
      apply Forall_cons in Hq2 as [Hitem Hq2].
      apply Forall_app. split; [done |].
      apply Forall_cons. split; [simpl; by apply counted_incr | done].
  - split.
    + rewrite fmap_app. apply NoDup_app. split; [done |]. split.
      * intros x Hx Hx'. apply list_elem_of_singleton in Hx'. subst x.
        by apply Forall_id_ne_not_elem in Hall.
      * apply NoDup_singleton.
    + apply Forall_app. split; [done |].
      apply Forall_singleton. simpl. apply counted_one.
Qed.

Lemma removeFromCart_invariant state i state' :
  cart_invariant state ->
  removeFromCart state i = Normal state' ->
  cart_invariant state'.
Proof.
  intros [Hnodup Hq] Hrem. unfold cart_invariant in *.
  destruct (removeFromCart_cases state i)
    as [(l1 & item & l2 & Hl & Hall & Hid & Heq) | [Hall Heq]];
    rewrite Heq in Hrem; [| discriminate].
  injection Hrem as <-. simpl.
  rewrite Hl in Hnodup, Hq.
  apply Forall_app in Hq as [Hq1 Hq2].
  apply Forall_cons in Hq2 as [Hitem Hq2].
  destruct (quantity item =? 1)%float eqn:Hone.
  - split.
    + rewrite fmap_app in *. simpl in Hnodup.
      apply NoDup_app in Hnodup as (H1 & H12 & H2).
      apply NoDup_cons in H2 as [_ H2].
      apply NoDup_app. split; [done |]. split; [| done].
      intros x Hx Hx'. apply (H12 x Hx). by apply list_elem_of_further.
    + apply Forall_app. by split.
  - split.
    + by rewrite fmap_app in *.
    + apply Forall_app. split; [done |].
      apply Forall_cons. split; [simpl; by apply counted_decr | done].
Qed.

Lemma reducer_invariant state action state' :
  cart_invariant state ->
  reducer state action = Normal state' ->
  cart_invariant state'.
Proof.
  destruct action as [payload | i]; simpl.
  - apply addToCart_invariant.
  - apply removeFromCart_invariant.
Qed.

Lemma run_invariant actions : forall state state',
  cart_invariant state ->
  run state actions = Normal state' ->
  cart_invariant state'.
Proof.
  induction actions as [|action rest IH]; intros state state' Hinv Hrun;
    simpl in Hrun.
  - by injection Hrun as <-.
  - destruct (reducer state action) as [next | e] eqn:Hstep;
      [| discriminate].
    apply (IH next state'); [| exact Hrun].
    by eapply reducer_invariant.
Qed.

Lemma initialState_invariant : cart_invariant initialState.
Proof. split; [apply NoDup_nil_2 | apply Forall_nil_2]. Qed.

(** C5: in every cart state reached from the empty initial state by
    ADD_ITEM transitions and REMOVE_ITEM transitions that return, the
    identifiers are pairwise distinct, every quantity is at least 1, and
    so no item has quantity 0. *)
Theorem reachable_cart_invariant actions state :
  run initialState actions = Normal state ->
  NoDup (id <$> items state)
  /\ Forall (fun item => (1 <=? quantity item)%float = true) (items state)
  /\ Forall (fun item => (quantity item =? 0)%float = false) (items state).
Proof.
  intros Hrun.
  destruct (run_invariant actions initialState state
              initialState_invariant Hrun) as [Hnodup Hq].
  split; [done |]. split.
  - eapply Forall_impl; [exact Hq |]. simpl. intros item. apply counted_leb.
  - eapply Forall_impl; [exact Hq |]. simpl. intros item.
    apply counted_eqb_zero.
Qed.

Lemma reachable_cart_invariant_witness :
  let widget := {| payload_id := "a"; payload_title := "Widget";
                   payload_price := 9.5%float |} in
  let gadget := {| payload_id := "b"; payload_title := "Gadget";
                   payload_price := 4%float |} in
  let actions := [AddToCart widget; AddToCart gadget; AddToCart widget;
                  RemoveFromCart "b"; AddToCart gadget] in
  let state := {| items := [ {| id := "a"; title := "Widget";
                                price := 9.5%float; quantity := 2%float |};
                             {| id := "b"; title := "Gadget";
                                price := 4%float; quantity := 1%float |} ] |} in
  run initialState actions = Normal state
  /\ NoDup (id <$> items state)
  /\ Forall (fun item => (1 <=? quantity item)%float = true) (items state)
  /\ Forall (fun item => (quantity item =? 0)%float = false) (items state).
Proof.
  intros widget gadget actions state.
  split; [reflexivity |].
  apply (reachable_cart_invariant actions state). reflexivity.
Defined.

Lemma addToCart_order state payload state' :
  addToCart state payload = Normal state' ->
  (line <$> items state) `prefix_of` (line <$> items state').
Proof.
  intros Hadd.
  destruct (addToCart_cases state payload)
    as [(l1 & item & l2 & Hl & _ & _ & Heq) | [_ Heq]];
    rewrite Heq in Hadd; injection Hadd as <-; simpl.
  - rewrite Hl, !fmap_app. simpl. exists []. by rewrite app_nil_r.
  - rewrite fmap_app. by eexists.
Qed.

Lemma removeFromCart_order state i state' :
  removeFromCart state i = Normal state' ->
  (line <$> items state') `sublist_of` (line <$> items state)
  /\ (length (items state) - 1 <= length (items state'))%nat.
Proof.
  intros Hrem.
  destruct (removeFromCart_cases state i)
    as [(l1 & item & l2 & Hl & _ & _ & Heq) | [_ Heq]];
    rewrite Heq in Hrem; [| discriminate].
  injection Hrem as <-. simpl. rewrite Hl.
  destruct (quantity item =? 1)%float.
  - split.
    + apply fmap_sublist, sublist_app; [done |]. by apply sublist_cons.
    + rewrite !length_app. simpl. lia.
  - split.
    + by rewrite !fmap_app.
    + rewrite !length_app. simpl. lia.
Qed.

End CartFacts.

Example cart_scenario :
  Cart.run Cart.initialState
    [Cart.AddToCart {| Cart.payload_id := "a"; Cart.payload_title := "Widget";
                       Cart.payload_price := 9.5%float |};
     Cart.AddToCart {| Cart.payload_id := "a"; Cart.payload_title := "Widget";
                       Cart.payload_price := 9.5%float |};
     Cart.RemoveFromCart "a"]
  = Normal {| Cart.items := [ {| Cart.id := "a"; Cart.title := "Widget";
                                 Cart.price := 9.5%float;
                                 Cart.quantity := 1%float |} ] |}.
Proof. reflexivity. Qed.

(** C3, at the input that breaks it: REMOVE_ITEM for an identifier the
    cart does not hold makes the reducer throw.  [findIndex] answers [-1],
    [state.items[-1]] is [undefined], and reading its [quantity] raises a
    [TypeError]. *)
Theorem removeFromCart_absent_id_throws :
  Cart.reducer Cart.initialState (Cart.RemoveFromCart "a") = Throw TypeError.
Proof. reflexivity. Qed.

(** ** Timers *)

Example timers_scenario :
  Timers.run {| Timers.isRunning := true; Timers.timers := [] |}
    [Timers.StopTimersAction;
     Timers.AddTimerAction {| Timers.name := "t1";
                              Timers.duration := 60%float |}]
  = Normal {| Timers.isRunning := false;
              Timers.timers := [ {| Timers.name := "t1";
                                    Timers.duration := 60%float |} ] |}.
Proof. reflexivity. Qed.

(** C6: START sets the run flag and STOP clears it, both leaving the timer
    list as it was; START followed by STOP ends with the flag cleared and
    the timer list of the start. *)
Theorem timers_start_stop (s : Timers.TimersState) :
  Timers.timersReducer s Timers.StartTimersAction
    = Normal {| Timers.isRunning := true; Timers.timers := Timers.timers s |}
  /\ Timers.timersReducer s Timers.StopTimersAction
    = Normal {| Timers.isRunning := false; Timers.timers := Timers.timers s |}
  /\ Timers.run s [Timers.StartTimersAction; Timers.StopTimersAction]
    = Normal {| Timers.isRunning := false; Timers.timers := Timers.timers s |}.
Proof. repeat split. Qed.

Section TimersFacts.
Import Timers.
Implicit Types (state : TimersState) (action : Action).

Lemma timersReducer_declared state action :
  declared action -> returns (timersReducer state action).
Proof. intros [| |timer]; by eexists. Qed.

Lemma timersReducer_other state action :
  type action ∉ declared_kinds -> timersReducer state action = Normal state.
Proof.
  intros Hkind. unfold timersReducer.
  destruct (String.eqb_spec (type action) "START_TIMERS") as [Heq | _].
  { exfalso. apply Hkind. rewrite Heq. apply list_elem_of_here. }
  destruct (String.eqb_spec (type action) "STOP_TIMERS") as [Heq | _].
  { exfalso. apply Hkind. rewrite Heq.
    apply list_elem_of_further, list_elem_of_here. }
  destruct (String.eqb_spec (type action) "ADD_TIMER") as [Heq | _].
  { exfalso. apply Hkind. rewrite Heq.
    do 2 apply list_elem_of_further. apply list_elem_of_here. }
  reflexivity.
Qed.

Lemma timersReducer_order state action state' :
  timersReducer state action = Normal state' ->
  timers state `prefix_of` timers state'.
Proof.
  unfold timersReducer. intros H.
  destruct (String.eqb (type action) "START_TIMERS");
    [injection H as <-; exists []; by rewrite app_nil_r |].
  destruct (String.eqb (type action) "STOP_TIMERS");
    [injection H as <-; exists []; by rewrite app_nil_r |].
  destruct (String.eqb (type action) "ADD_TIMER");
    [| injection H as <-; exists []; by rewrite app_nil_r].
  destruct (payload action) as [p |]; [| discriminate].
  injection H as <-. simpl. by eexists.
Qed.

(** C4: an action whose tag is none of the declared kinds leaves the state
    as it is: the reducer returns its argument. *)
Theorem timersReducer_unknown_action state action :
  type action ∉ declared_kinds ->
  timersReducer state action = Normal state.
Proof. apply timersReducer_other. Qed.

Lemma timersReducer_unknown_action_witness :
  let state := {| isRunning := false;
                  timers := [ {| name := "t1"; duration := 60%float |} ] |} in
  let action := {| type := "RESET_TIMERS"; payload := None |} in
  (type action ∉ declared_kinds)
  /\ timersReducer state action = Normal state.
Proof.
  intros state action.
  assert (Hkind : type action ∉ declared_kinds).
  { by apply (bool_decide_unpack _). }
  split; [exact Hkind | exact (timersReducer_unknown_action state action Hkind)].
Defined.

(** C7: ADD_TIMER appends the record [{name; duration}] of its payload as
    the last timer, the timers before it as they were and in their order,
    and keeps the run flag. *)
Theorem timersReducer_add_timer state (n : string) (d : float) :
  timersReducer state (AddTimerAction {| name := n; duration := d |})
  = Normal {| isRunning := isRunning state;
              timers := timers state ++ [ {| name := n; duration := d |} ] |}.
Proof. reflexivity. Qed.

End TimersFacts.

(** ** Order of the collections *)

(** C8: a transition keeps the order of what it keeps.  After ADD_ITEM the
    lines of the old cart are a prefix of the lines of the new one, so
    what is new comes last and nothing is lost; after REMOVE_ITEM the
    lines of the new cart are a subsequence of the lines of the old one,
    at most one shorter; after any timers action the old timer list is a
    prefix of the new one. *)
Theorem order_preserved :
  (forall state action state',
      Cart.reducer state action = Normal state' ->
      match action with
      | Cart.AddToCart _ =>
          (Cart.line <$> Cart.items state)
            `prefix_of` (Cart.line <$> Cart.items state')
      | Cart.RemoveFromCart _ =>
          (Cart.line <$> Cart.items state')
            `sublist_of` (Cart.line <$> Cart.items state)
          /\ (length (Cart.items state) - 1
              <= length (Cart.items state'))%nat
      end)
  /\ (forall state action state',
        Timers.timersReducer state action = Normal state' ->
        Timers.timers state `prefix_of` Timers.timers state').
Proof.
  split.
  - intros state [payload | i] state' Hstep; simpl in Hstep.
    + by eapply addToCart_order.
    + by eapply removeFromCart_order.
  - apply timersReducer_order.
Qed.

Lemma order_preserved_witness :
  let a2 := {| Cart.id := "a"; Cart.title := "Widget";
               Cart.price := 9.5%float; Cart.quantity := 2%float |} in
  let a3 := {| Cart.id := "a"; Cart.title := "Widget";
               Cart.price := 9.5%float; Cart.quantity := 3%float |} in
  let b1 := {| Cart.id := "b"; Cart.title := "Gadget";
               Cart.price := 4%float; Cart.quantity := 1%float |} in
  let t1 := {| Timers.name := "t1"; Timers.duration := 60%float |} in
  let t2 := {| Timers.name := "t2"; Timers.duration := 5%float |} in
  ((Cart.line <$> [a2; b1]) `prefix_of` (Cart.line <$> [a3; b1]))
  /\ ((Cart.line <$> [a2]) `sublist_of` (Cart.line <$> [a2; b1])
      /\ (length [a2; b1] - 1 <= length [a2])%nat)
  /\ [t1] `prefix_of` [t1; t2].
Proof.
  intros a2 a3 b1 t1 t2. split; [| split].
  - exact (proj1 order_preserved {| Cart.items := [a2; b1] |}
             (Cart.AddToCart {| Cart.payload_id := "a";
                                Cart.payload_title := "Widget";
                                Cart.payload_price := 9.5%float |})
             {| Cart.items := [a3; b1] |} eq_refl).
  - exact (proj1 order_preserved {| Cart.items := [a2; b1] |}
             (Cart.RemoveFromCart "b")
             {| Cart.items := [a2] |} eq_refl).
  - exact (proj2 order_preserved
             {| Timers.isRunning := true; Timers.timers := [t1] |}
             (Timers.AddTimerAction t2)
             {| Timers.isRunning := true; Timers.timers := [t1; t2] |}
             eq_refl).
Defined.

(** ** The fetch helper *)

Section HttpFacts.
Import Http.
Context {Body : Type}.
Implicit Types (server : Server Body) (response : Response Body).

Lemma get_sends_once server url sent : (get server url sent).2 = S sent.
Proof. reflexivity. Qed.

Lemma get_not_ok server url sent response :
  server url sent = Normal response ->
  ok response = false ->
  (get server url sent).1 = Throw (Error "Failed to fetch data.").
Proof.
  intros Hsettled Hok. unfold get, fetch. rewrite Hsettled.
  unfold mbind, completion_bind. simpl. by rewrite Hok.
Qed.

Lemma get_ok server url sent response :
  server url sent = Normal response ->
  ok response = true ->
  (get server url sent).1 = json response.
Proof.
  intros Hsettled Hok. unfold get, fetch. rewrite Hsettled.
  unfold mbind, completion_bind. simpl. by rewrite Hok.
Qed.

Lemma get_rejected server url sent e :
  server url sent = Throw e -> (get server url sent).1 = Throw e.
Proof. intros Hsettled. unfold get, fetch. by rewrite Hsettled. Qed.

(** C9, as the code has it: [get] sends one request and never a second.
    On a response that is not ok it raises [Error] with the message
    'Failed to fetch data.' and nothing else; on a response that is ok it
    settles as [response.json()] does, with the parsed body or with the
    exception of the parse; when [fetch] rejects, it raises the
    rejection. *)
Theorem get_spec server url sent :
  (get server url sent).2 = S sent
  /\ (forall response,
        server url sent = Normal response ->
        ok response = false ->
        (get server url sent).1 = Throw (Error "Failed to fetch data."))
  /\ (forall response,
        server url sent = Normal response ->
        ok response = true ->
        (get server url sent).1 = json response)
  /\ (forall e,
        server url sent = Throw e ->
        (get server url sent).1 = Throw e).
Proof.
  split; [apply get_sends_once |].
  split; [apply get_not_ok |].
  split; [apply get_ok | apply get_rejected].
Qed.

End HttpFacts.

(** A failed request is not sent again, even when a second one would have
    been answered. *)
Example get_no_retry :
  let server : Http.Server string := fun _ n =>
    match n with
    | O => Normal {| Http.ok := false; Http.json := Normal "Not Found" |}
    | S _ => Normal {| Http.ok := true; Http.json := Normal "[]" |}
    end in
  Http.get server "https://jsonplaceholder.typicode.com/posts" 0
  = (Throw (Error "Failed to fetch data."), 1%nat).
Proof. reflexivity. Qed.

Lemma get_spec_witness :
  let not_found : Http.Response string :=
    {| Http.ok := false; Http.json := Normal "Not Found" |} in
  let posts : Http.Response string :=
    {| Http.ok := true; Http.json := Normal "[]" |} in
  let server : Http.Server string := fun _ n =>
    match n with
    | O => Normal not_found
    | 1%nat => Normal posts
    | _ => Throw NetworkError
    end in
  let url := "https://jsonplaceholder.typicode.com/posts" in
  (server url 0%nat = Normal not_found /\ Http.ok not_found = false
   /\ (Http.get server url 0).1 = Throw (Error "Failed to fetch data."))
  /\ (server url 1%nat = Normal posts /\ Http.ok posts = true
      /\ (Http.get server url 1).1 = Normal "[]")
  /\ (server url 2%nat = Throw NetworkError
      /\ (Http.get server url 2).1 = Throw NetworkError).
Proof.
  intros not_found posts server url.
  split; [| split].
  - split; [reflexivity |]. split; [reflexivity |].
    exact (proj1 (proj2 (get_spec server url 0%nat))
             not_found eq_refl eq_refl).
  - split; [reflexivity |]. split; [reflexivity |].
    exact (proj1 (proj2 (proj2 (get_spec server url 1%nat)))
             posts eq_refl eq_refl).
  - split; [reflexivity |].
    exact (proj2 (proj2 (proj2 (get_spec server url 2%nat)))
             NetworkError eq_refl).
Defined.

(** C9, as the claim has it, fails: a response that is ok and whose body is
    not JSON makes [get] raise, with the exception of the parse. *)
Lemma get_ok_response_raises :
  let response : Http.Response string :=
    {| Http.ok := true; Http.json := Throw SyntaxError |} in
  let server : Http.Server string := fun _ _ => Normal response in
  let url := "https://jsonplaceholder.typicode.com/posts" in
  server url 0%nat = Normal response
  /\ ~ (throws (Http.get server url 0).1 <-> Http.ok response = false).
Proof.
  intros response server url. split; [reflexivity |].
  intros [Hraise _].
  assert (Hfalse : Http.ok response = false).
  { apply Hraise. by exists SyntaxError. }
  discriminate Hfalse.
Qed.

(** * Beyond the reducers' contracts *)

(** ** Sequences of cart actions *)

Section CartSequences.
Import Cart.
Implicit Types (state : CartState) (item : CartItem) (i : string).

Lemma findIndex_first {A : Type} (p : A -> bool) l1 x l2 :
  Forall (fun y => p y = false) l1 ->
  p x = true ->
  findIndex p (l1 ++ x :: l2) = Z.of_nat (length l1).
Proof.
  intros Hall Hx. unfold findIndex.
  enough (H : forall k, findIndex_from p (l1 ++ x :: l2) k
                        = k + Z.of_nat (length l1))
    by (rewrite H; lia).
  induction Hall as [|y l1 Hy Hall IH]; intros k; simpl.
  - rewrite Hx. lia.
  - rewrite Hy, IH. lia.
Qed.

Lemma lookup_first i l1 item l2 :
  Forall (fun y => id y <> i) l1 ->
  id item = i ->
  findIndex (has_id i) (l1 ++ item :: l2) = Z.of_nat (length l1).
Proof.
  intros Hall Hid. apply findIndex_first.
  - eapply Forall_impl; [exact Hall |]. intros y. apply has_id_false.
  - by apply has_id_true.
Qed.

Lemma addToCart_at l1 item l2 payload :
  Forall (fun y => id y <> payload_id payload) l1 ->
  id item = payload_id payload ->
  addToCart {| items := l1 ++ item :: l2 |} payload
  = Normal {| items := l1 ++ with_quantity item (quantity item + 1)%float :: l2 |}.
Proof.
  intros Hall Hid. unfold addToCart. simpl.
  rewrite (lookup_first _ _ _ _ Hall Hid).
  rewrite (proj2 (Z.geb_le _ _)) by lia.
  by rewrite at_index_middle, set_index_middle.
Qed.

Lemma addToCart_fresh state payload :
  payload_id payload ∉ (id <$> items state) ->
  addToCart state payload
  = Normal {| items := items state ++ [new_item payload] |}.
Proof.
  intros Hfresh.
  destruct (addToCart_cases state payload)
    as [(l1 & item & l2 & Hl & _ & Hid & _) | [_ Heq]]; [| done].
  exfalso. apply Hfresh. rewrite Hl, fmap_app. simpl.
  apply elem_of_app. right. rewrite Hid. apply list_elem_of_here.
Qed.

Lemma removeFromCart_at l1 item l2 i :
  Forall (fun y => id y <> i) l1 ->
  id item = i ->
  removeFromCart {| items := l1 ++ item :: l2 |} i
  = Normal {| items :=
                if (quantity item =? 1)%float then l1 ++ l2
                else l1 ++ with_quantity item (quantity item - 1)%float :: l2 |}.
Proof.
  intros Hall Hid. unfold removeFromCart. simpl.
  rewrite (lookup_first _ _ _ _ Hall Hid).
  rewrite at_index_middle, set_index_middle, splice1_middle.
  by destruct (quantity item =? 1)%float.
Qed.

Lemma with_quantity_same item q : quantity item = q -> with_quantity item q = item.
Proof. intros <-. by destruct item. Qed.

Lemma run_app state actions1 actions2 :
  run state (actions1 ++ actions2)
  = state' ← run state actions1; run state' actions2.
Proof.
  revert state. induction actions1 as [|action rest IH]; intros state; simpl.
  - reflexivity.
  - destruct (reducer state action) as [next | e]; simpl; [apply IH | done].
Qed.

Lemma with_quantity_twice item q q' :
  with_quantity (with_quantity item q) q' = with_quantity item q'.
Proof. reflexivity. Qed.

Lemma run_adds_at n : forall l1 item l2 payload m,
  Forall (fun y => id y <> payload_id payload) l1 ->
  id item = payload_id payload ->
  quantity item = double m ->
  1 <= m ->
  m + Z.of_nat n <= 2 ^ 53 ->
  run {| items := l1 ++ item :: l2 |} (replicate n (AddToCart payload))
  = Normal {| items :=
                l1 ++ with_quantity item (double (m + Z.of_nat n)) :: l2 |}.
Proof.
  induction n as [|n IH]; intros l1 item l2 payload m Hall Hid Hq Hm Hn.
  - simpl. rewrite with_quantity_same; [done |].
    rewrite Hq. f_equal. lia.
  - cbn [replicate run reducer]. rewrite addToCart_at by done.
    cbn [mbind completion_bind].
    rewrite (IH l1 _ l2 payload (m + 1)); try done; try lia.
    + rewrite with_quantity_twice.
      by replace (m + 1 + Z.of_nat n) with (m + Z.of_nat (S n)) by lia.
    + cbn [with_quantity quantity]. rewrite Hq. apply double_incr. lia.
Qed.

Lemma run_removes_at n : forall l1 item l2 i,
  Forall (fun y => id y <> i) l1 ->
  id item = i ->
  quantity item = double (Z.of_nat (S n)) ->
  Z.of_nat (S n) <= 2 ^ 53 ->
  run {| items := l1 ++ item :: l2 |} (replicate (S n) (RemoveFromCart i))
  = Normal {| items := l1 ++ l2 |}.
Proof.
  induction n as [|n IH]; intros l1 item l2 i Hall Hid Hq Hn;
    cbn [replicate run reducer]; rewrite removeFromCart_at by done;
    cbn [mbind completion_bind]; rewrite Hq, double_eqb_one by lia.
  - reflexivity.
  - rewrite (proj2 (Z.eqb_neq _ _)) by lia.
    apply (IH l1 (with_quantity item (double (Z.of_nat (S (S n))) - 1)%float)
             l2 i); [done | done | | lia].
    cbn [with_quantity quantity]. rewrite double_decr by lia.
    f_equal. lia.
Qed.

(** X1: [removeFromCart] fails exactly on an identifier no item of the cart
    has, and then with a [TypeError]; on any identifier some item has, it
    returns. *)
Theorem removeFromCart_error state i :
  (removeFromCart state i = Throw TypeError <-> i ∉ (id <$> items state))
  /\ (returns (removeFromCart state i) <-> i ∈ (id <$> items state)).
Proof.
  split; split.
  - intros Hthrow Hi. apply removeFromCart_present in Hi as [state' Hi].
    congruence.
  - apply removeFromCart_absent.
  - intros [state' Hret] . destruct (decide (i ∈ (id <$> items state)))
      as [Hi | Hi]; [done |].
    apply removeFromCart_absent in Hi. congruence.
  - apply removeFromCart_present.
Qed.

(** X2: adding an item and then removing its identifier gives back the
    cart one started from, as long as the quantities of the cart are whole
    numbers from 1 to 2^53 - 1. *)
Theorem add_then_remove state payload :
  Forall (fun item => exists n, 1 <= n < 2 ^ 53 /\ quantity item = double n)
    (items state) ->
  run state [AddToCart payload; RemoveFromCart (payload_id payload)]
  = Normal state.
Proof.
  intros Hq. destruct state as [l]. simpl in Hq.
  cbn [run reducer].
  destruct (addToCart_cases {| items := l |} payload)
    as [(l1 & item & l2 & Hl & Hall & Hid & ->) | [Hall ->]];
    cbn [mbind completion_bind]; simpl in *.
  - rewrite removeFromCart_at by done. subst l.
    apply Forall_app in Hq as [_ Hq].
    apply Forall_cons in Hq as [(n & Hn & Hq) _].
    cbn [with_quantity quantity].
    rewrite Hq, double_incr, double_eqb_one, double_decr by lia.
    rewrite (proj2 (Z.eqb_neq _ _)) by lia.
    rewrite with_quantity_twice, with_quantity_same; [done |].
    rewrite Hq. f_equal. lia.
  - rewrite (removeFromCart_at l (new_item payload) []) by done.
    change (quantity (new_item payload) =? 1)%float with true.
    by rewrite app_nil_r.
Qed.

Lemma add_then_remove_witness :
  let state := {| items := [ {| id := "a"; title := "Widget";
                                price := 9.5%float; quantity := 2%float |} ] |} in
  let payload := {| payload_id := "a"; payload_title := "Widget";
                    payload_price := 9.5%float |} in
  Forall (fun item => exists n, 1 <= n < 2 ^ 53 /\ quantity item = double n)
    (items state)
  /\ run state [AddToCart payload; RemoveFromCart "a"] = Normal state.
Proof.
  intros state payload.
  assert (Hq : Forall (fun item =>
                         exists n, 1 <= n < 2 ^ 53 /\ quantity item = double n)
                 (items state)).
  { apply Forall_cons. split; [| apply Forall_nil_2].
    exists 2. split; [| reflexivity].
    change (2 ^ 53) with 9007199254740992. lia. }
  split; [exact Hq | exact (add_then_remove state payload Hq)].
Defined.

(** X3: adding the same new item [n + 1] times, for [n + 1] up to 2^53,
    appends a single line, of quantity [n + 1], at the end of the cart. *)
Theorem repeated_adds state payload (n : nat) :
  Z.of_nat (S n) <= 2 ^ 53 ->
  payload_id payload ∉ (id <$> items state) ->
  run state (replicate (S n) (AddToCart payload))
  = Normal {| items :=
                items state
                ++ [ {| id := payload_id payload;
                        title := payload_title payload;
                        price := payload_price payload;
                        quantity := double (Z.of_nat (S n)) |} ] |}.
Proof.
  intros Hn Hfresh. cbn [replicate run reducer].
  rewrite addToCart_fresh by done. cbn [mbind completion_bind].
  rewrite (run_adds_at n (items state) (new_item payload) [] payload 1).
  - unfold with_quantity, new_item. cbn [id title price quantity].
    by replace (1 + Z.of_nat n) with (Z.of_nat (S n)) by lia.
  - by apply Forall_id_ne_not_elem.
  - done.
  - reflexivity.
  - lia.
  - lia.
Qed.

Lemma repeated_adds_witness :
  let payload := {| payload_id := "a"; payload_title := "Widget";
                    payload_price := 9.5%float |} in
  Z.of_nat 3 <= 2 ^ 53
  /\ (payload_id payload ∉ (id <$> items initialState))
  /\ run initialState (replicate 3 (AddToCart payload))
     = Normal {| items := [ {| id := "a"; title := "Widget";
                               price := 9.5%float;
                               quantity := double 3 |} ] |}.
Proof.
  intros payload.
  assert (Hn : Z.of_nat 3 <= 2 ^ 53)
    by (change (2 ^ 53) with 9007199254740992; lia).
  assert (Hfresh : payload_id payload ∉ (id <$> items initialState)).
  { simpl. apply not_elem_of_nil. }
  split; [exact Hn |]. split; [exact Hfresh |].
  exact (repeated_adds initialState payload 2 Hn Hfresh).
Defined.

(** X4: removing an identifier as many times as the quantity of its line,
    a whole number from 1 to 2^53, deletes the line and leaves the others
    as they were; removing it once more, when no other line has the
    identifier, makes the reducer throw. *)
Theorem repeated_removes l1 item l2 (n : nat) :
  Forall (fun y => id y <> id item) l1 ->
  quantity item = double (Z.of_nat (S n)) ->
  Z.of_nat (S n) <= 2 ^ 53 ->
  run {| items := l1 ++ item :: l2 |}
      (replicate (S n) (RemoveFromCart (id item)))
  = Normal {| items := l1 ++ l2 |}
  /\ (id item ∉ (id <$> l2) ->
      run {| items := l1 ++ item :: l2 |}
          (replicate (S (S n)) (RemoveFromCart (id item)))
      = Throw TypeError).
Proof.
  intros Hall Hq Hn.
  assert (Hrun := run_removes_at n l1 item l2 (id item) Hall eq_refl Hq Hn).
  split; [exact Hrun |]. intros Hl2.
  replace (S (S n)) with (S n + 1)%nat by lia.
  rewrite replicate_add, run_app, Hrun. cbn [mbind completion_bind].
  cbn [replicate run reducer]. rewrite removeFromCart_absent; [done |].
  simpl. rewrite fmap_app. intros Hin.
  apply elem_of_app in Hin as [Hin | Hin]; [| done].
  by apply Forall_id_ne_not_elem in Hall.
Qed.

Lemma repeated_removes_witness :
  let item := {| id := "a"; title := "Widget"; price := 9.5%float;
                 quantity := 2%float |} in
  let other := {| id := "b"; title := "Gadget"; price := 4%float;
                  quantity := 1%float |} in
  run {| items := [other; item] |} (replicate 2 (RemoveFromCart "a"))
  = Normal {| items := [other] |}
  /\ run {| items := [other; item] |} (replicate 3 (RemoveFromCart "a"))
     = Throw TypeError.
Proof.
  intros item other.
  assert (Hall : Forall (fun y => id y <> id item) [other]).
  { apply Forall_cons. split; [discriminate | apply Forall_nil_2]. }
  assert (Hn : Z.of_nat 2 <= 2 ^ 53)
    by (change (2 ^ 53) with 9007199254740992; lia).
  destruct (repeated_removes [other] item [] 1 Hall eq_refl Hn)
    as [Hrun Hmore].
  split; [exact Hrun |]. apply Hmore. apply not_elem_of_nil.
Defined.

End CartSequences.

(** ** The cart component *)

Section CartItemsFacts.
Import Cart CartItems.
Implicit Types (state : CartState) (item : CartItem).

Lemma sum_app (ns1 ns2 : list Z) :
  foldr Z.add 0 (ns1 ++ ns2) = foldr Z.add 0 ns1 + foldr Z.add 0 ns2.
Proof. induction ns1 as [|n ns1 IH]; simpl; lia. Qed.

Lemma sum_nonneg (ns : list Z) :
  Forall (fun n => 1 <= n) ns -> 0 <= foldr Z.add 0 ns.
Proof. induction 1; simpl; lia. Qed.

Lemma foldl_total (l : list CartItem) : forall (ns : list Z) a,
  quantity <$> l = double <$> ns ->
  Forall (fun n => 1 <= n) ns ->
  0 <= a ->
  a + foldr Z.add 0 ns < 2 ^ 53 ->
  foldl (fun val item => (quantity item + val)%float) (double a) l
  = double (a + foldr Z.add 0 ns).
Proof.
  induction l as [|x l IH]; intros ns a Hq Hns Ha Hsum.
  - symmetry in Hq. apply fmap_nil_inv in Hq as ->. simpl.
    by rewrite Z.add_0_r.
  - symmetry in Hq. apply fmap_cons_inv in Hq as (n & ns' & Hx & Hl & ->).
    apply Forall_cons in Hns as [Hn Hns].
    pose proof (sum_nonneg ns' Hns) as Hpos. simpl in Hsum |- *.
    rewrite Hx, double_plus by lia.
    rewrite (IH ns' (n + a)); [f_equal; lia | done | done | lia | lia].
Qed.

(** On whole quantities whose sum is below 2^53, the selector gives the
    sum. *)
Lemma totalQuantity_whole state (ns : list Z) :
  quantity <$> items state = double <$> ns ->
  Forall (fun n => 1 <= n) ns ->
  foldr Z.add 0 ns < 2 ^ 53 ->
  totalQuantity state = double (foldr Z.add 0 ns).
Proof.
  intros Hq Hns Hsum. unfold totalQuantity. rewrite <- double_zero.
  by rewrite (foldl_total (items state) ns 0) by (done || lia).
Qed.

Lemma whole_split (l1 l2 : list CartItem) item (ns : list Z) :
  quantity <$> (l1 ++ item :: l2) = double <$> ns ->
  exists ns1 n ns2,
    ns = ns1 ++ n :: ns2
    /\ quantity <$> l1 = double <$> ns1
    /\ quantity item = double n
    /\ quantity <$> l2 = double <$> ns2.
Proof.
  rewrite fmap_app. simpl. intros Hq. symmetry in Hq.
  apply fmap_app_inv in Hq as (ns1 & ns' & H1 & H2 & ->).
  symmetry in H2. apply fmap_cons_inv in H2 as (n & ns2 & Hn & H2 & ->).
  by exists ns1, n, ns2.
Qed.

Lemma reducer_whole state action state' (ns : list Z) :
  quantity <$> items state = double <$> ns ->
  Forall (fun n => 1 <= n) ns ->
  foldr Z.add 0 ns + 1 < 2 ^ 53 ->
  reducer state action = Normal state' ->
  exists ns',
    quantity <$> items state' = double <$> ns'
    /\ Forall (fun n => 1 <= n) ns'
    /\ foldr Z.add 0 ns'
       = foldr Z.add 0 ns
         + match action with AddToCart _ => 1 | RemoveFromCart _ => -1 end.
Proof.
  intros Hq Hns Hsum Hstep. destruct action as [payload | i]; simpl in Hstep.
  - destruct (addToCart_cases state payload)
      as [(l1 & item & l2 & Hl & _ & _ & Heq) | [_ Heq]];
      rewrite Heq in Hstep; injection Hstep as <-; simpl.
    + rewrite Hl in Hq.
      apply whole_split in Hq as (ns1 & n & ns2 & -> & H1 & Hn & H2).
      apply Forall_app in Hns as [Hns1 Hns2].
      apply Forall_cons in Hns2 as [Hn1 Hns2].
      pose proof (sum_nonneg ns1 Hns1). pose proof (sum_nonneg ns2 Hns2).
      rewrite sum_app in Hsum. simpl in Hsum.
      exists (ns1 ++ (n + 1) :: ns2). split; [| split].
      * rewrite !fmap_app, !fmap_cons. cbn [with_quantity quantity].
        by rewrite H1, H2, Hn, double_incr by lia.
      * apply Forall_app. split; [done |].
        apply Forall_cons. split; [lia | done].
      * rewrite !sum_app. simpl. lia.
    + exists (ns ++ [1]). split; [| split].
      * rewrite !fmap_app. by rewrite Hq.
      * apply Forall_app. split; [done |]. apply Forall_singleton. lia.
      * rewrite sum_app. simpl. lia.
  - destruct (removeFromCart_cases state i)
      as [(l1 & item & l2 & Hl & _ & _ & Heq) | [_ Heq]];
      rewrite Heq in Hstep; [| discriminate].
    injection Hstep as <-. simpl. rewrite Hl in Hq.
    apply whole_split in Hq as (ns1 & n & ns2 & -> & H1 & Hn & H2).
    apply Forall_app in Hns as [Hns1 Hns2].
    apply Forall_cons in Hns2 as [Hn1 Hns2].
    pose proof (sum_nonneg ns1 Hns1). pose proof (sum_nonneg ns2 Hns2).
    rewrite sum_app in Hsum. simpl in Hsum.
    rewrite Hn, double_eqb_one by lia.
    destruct (Z.eqb_spec n 1) as [-> | Hne].
    + exists (ns1 ++ ns2). split; [| split].
      * rewrite !fmap_app. by rewrite H1, H2.
      * apply Forall_app. by split.
      * rewrite !sum_app. simpl. lia.
    + exists (ns1 ++ (n - 1) :: ns2). split; [| split].
      * rewrite !fmap_app, !fmap_cons. cbn [with_quantity quantity].
        by rewrite H1, H2, double_decr by lia.
      * apply Forall_app. split; [done |].
        apply Forall_cons. split; [lia | done].
      * rewrite !sum_app. simpl. lia.
Qed.

(** X5: the number of pieces the header shows follows the cart.  When the
    quantities of the cart are whole numbers from 1 up and their sum is
    below 2^53 - 1, the selector gives exactly their sum, and after an
    ADD_ITEM it gives 1 more, after a REMOVE_ITEM that returns 1 less. *)
Theorem totalQuantity_step state action state' (ns : list Z) :
  quantity <$> items state = double <$> ns ->
  Forall (fun n => 1 <= n) ns ->
  foldr Z.add 0 ns + 1 < 2 ^ 53 ->
  reducer state action = Normal state' ->
  totalQuantity state = double (foldr Z.add 0 ns)
  /\ totalQuantity state'
     = double (foldr Z.add 0 ns
               + match action with
                 | AddToCart _ => 1
                 | RemoveFromCart _ => -1
                 end).
Proof.
  intros Hq Hns Hsum Hstep. split.
  - apply totalQuantity_whole; [done | done | lia].
  - destruct (reducer_whole state action state' ns Hq Hns Hsum Hstep)
      as (ns' & Hq' & Hns' & Hs).
    rewrite <- Hs. apply totalQuantity_whole; [done | done |].
    rewrite Hs. destruct action; lia.
Qed.

Lemma totalQuantity_step_witness :
  let a2 := {| id := "a"; title := "Widget"; price := 9.5%float;
               quantity := 2%float |} in
  let b1 := {| id := "b"; title := "Gadget"; price := 4%float;
               quantity := 1%float |} in
  reducer {| items := [a2; b1] |} (RemoveFromCart "b")
  = Normal {| items := [a2] |}
  /\ totalQuantity {| items := [a2; b1] |} = double 3
  /\ totalQuantity {| items := [a2] |} = double 2.
Proof.
  intros a2 b1. split; [reflexivity |].
  assert (Hns : Forall (fun n => 1 <= n) [2; 1]).
  { apply Forall_cons. split; [lia |].
    apply Forall_cons. split; [lia | apply Forall_nil_2]. }
  assert (Hsum : foldr Z.add 0 [2; 1] + 1 < 2 ^ 53)
    by (change (2 ^ 53) with 9007199254740992; simpl; lia).
  exact (totalQuantity_step {| items := [a2; b1] |} (RemoveFromCart "b")
           {| items := [a2] |} [2; 1] eq_refl Hns Hsum eq_refl).
Defined.

(** X6: the buttons of a line that is in the cart are safe.  [+] raises
    the quantity of a line without adding one, and [-] never makes the
    reducer throw. *)
Theorem line_buttons state item :
  item ∈ items state ->
  (exists state',
      handleAddToCart state item = Normal state'
      /\ length (items state') = length (items state)
      /\ (id <$> items state') = (id <$> items state))
  /\ returns (handleRemoveFromCart state (id item)).
Proof.
  intros Hin.
  assert (Hid : id item ∈ (id <$> items state)).
  { apply list_elem_of_fmap. by exists item. }
  split.
  - unfold handleAddToCart, reducer.
    destruct (addToCart_cases state (item_payload item))
      as [(l1 & x & l2 & Hl & _ & _ & ->) | [Hall _]].
    + eexists. split; [done |]. simpl. rewrite Hl.
      split; [by rewrite !length_app | by rewrite !fmap_app].
    + by apply Forall_id_ne_not_elem in Hall.
  - by apply removeFromCart_present.
Qed.

Lemma line_buttons_witness :
  let item := {| id := "a"; title := "Widget"; price := 9.5%float;
                 quantity := 1%float |} in
  let state := {| items := [item] |} in
  item ∈ items state
  /\ (exists state',
        handleAddToCart state item = Normal state'
        /\ length (items state') = length (items state)
        /\ (id <$> items state') = (id <$> items state))
  /\ returns (handleRemoveFromCart state (id item)).
Proof.
  intros item state.
  assert (Hin : item ∈ items state) by apply list_elem_of_here.
  split; [exact Hin | exact (line_buttons state item Hin)].
Defined.

End CartItemsFacts.

(** ** The timers context *)

Section TimersContextFacts.
Import Timers TimersContext.
Implicit Types (state : TimersState) (action : Action).

(** X7: the timers reducer throws in one case only, an ADD_TIMER action
    that carries no payload; on every other action object it returns. *)
Theorem timersReducer_throws_iff state action :
  throws (timersReducer state action)
  <-> type action = "ADD_TIMER" /\ payload action = None.
Proof.
  unfold timersReducer. split.
  - intros [e He].
    destruct (String.eqb_spec (type action) "START_TIMERS") as [Hs | _];
      [discriminate |].
    destruct (String.eqb_spec (type action) "STOP_TIMERS") as [Hs | _];
      [discriminate |].
    destruct (String.eqb_spec (type action) "ADD_TIMER") as [Hs | _];
      [| discriminate].
    destruct (payload action); [discriminate | done].
  - intros [Htype Hpayload]. rewrite Htype, Hpayload. by exists TypeError.
Qed.

Lemma timersReducer_call state call :
  timersReducer state (dispatched call)
  = Normal
      match call with
      | addTimer timerData =>
          {| isRunning := isRunning state;
             timers := timers state ++ [timerData] |}
      | startTimers => {| isRunning := true; timers := timers state |}
      | stopTimers => {| isRunning := false; timers := timers state |}
      end.
Proof. destruct call as [[n d] | |]; reflexivity. Qed.

(** X8: whatever methods of the context are called, in whatever order, the
    reducer never throws; the timers are those of the start followed by
    the added ones in the order of the calls, and the run flag is that of
    the last [startTimers] or [stopTimers]. *)
Theorem context_calls (calls : list Call) state :
  after state calls
  = Normal {| isRunning := running (isRunning state) calls;
              timers := timers state ++ added calls |}.
Proof.
  unfold after. revert state.
  induction calls as [|call calls IH]; intros state.
  - simpl. rewrite app_nil_r. by destruct state.
  - cbn [fmap list_fmap run]. rewrite timersReducer_call.
    cbn [mbind completion_bind]. rewrite IH.
    destruct call; simpl; try done.
    by rewrite <- app_assoc.
Qed.

End TimersContextFacts.

(** ** The goal list *)

Section GoalsFacts.
Import Goals.
Implicit Types (goal : CourseGoal) (goals : list CourseGoal).

Lemma filter_all {A : Type} (f : A -> bool) (l : list A) :
  Forall (fun x => f x = true) l -> List.filter f l = l.
Proof.
  induction 1 as [|x l Hx Hall IH]; simpl; [done |]. by rewrite Hx, IH.
Qed.

Lemma filter_sublist {A : Type} (f : A -> bool) (l : list A) :
  List.filter f l `sublist_of` l.
Proof.
  induction l as [|x l IH]; simpl; [constructor |].
  destruct (f x); by constructor.
Qed.

Lemma filter_Forall {A : Type} (f : A -> bool) (l : list A) :
  Forall (fun x => f x = true) (List.filter f l).
Proof.
  apply Forall_forall. intros x Hx.
  apply list_elem_of_In, filter_In in Hx. tauto.
Qed.

Lemma filter_largest {A : Type} (f : A -> bool) (kept l : list A) :
  kept `sublist_of` l ->
  Forall (fun x => f x = true) kept ->
  kept `sublist_of` List.filter f l.
Proof.
  induction 1 as [|x l1 l2 Hsub IH | x l1 l2 Hsub IH]; intros Hall; simpl.
  - constructor.
  - apply Forall_cons in Hall as [Hx Hall]. rewrite Hx.
    constructor. by apply IH.
  - destruct (f x); [constructor |]; by apply IH.
Qed.

(** X9: deleting a goal keeps exactly the goals with another id: what is
    left is a subsequence of the goals, no goal in it has the id, and
    every subsequence of the goals without a goal of that id is a
    subsequence of it; so each goal with another id is kept, in its place
    and as often as it was there, and each goal with the id is removed. *)
Theorem handleDeleteGoal_spec (i : float) goals :
  handleDeleteGoal i goals `sublist_of` goals
  /\ Forall (fun goal => PrimFloat.eqb (id goal) i = false)
       (handleDeleteGoal i goals)
  /\ forall kept,
      kept `sublist_of` goals ->
      Forall (fun goal => PrimFloat.eqb (id goal) i = false) kept ->
      kept `sublist_of` handleDeleteGoal i goals.
Proof.
  unfold handleDeleteGoal, strict_ne. split; [apply filter_sublist |]. split.
  - eapply Forall_impl; [apply filter_Forall |]. simpl. intros goal.
    apply negb_true_iff.
  - intros kept Hsub Hkept. apply filter_largest; [done |].
    eapply Forall_impl; [exact Hkept |]. simpl. intros goal.
    apply negb_true_iff.
Qed.

Lemma handleDeleteGoal_spec_witness :
  let g := {| id := 0.25%float; title := "Learn React";
              description := "In depth" |} in
  let h := {| id := 0.5%float; title := "Learn TS";
              description := "Basics" |} in
  [g; g] `sublist_of` [g; h; g]
  /\ Forall (fun goal => PrimFloat.eqb (id goal) 0.5 = false) [g; g]
  /\ [g; g] `sublist_of` handleDeleteGoal 0.5 [g; h; g].
Proof.
  intros g h.
  assert (Hsub : [g; g] `sublist_of` [g; h; g]).
  { apply sublist_skip, sublist_cons, sublist_skip, sublist_nil. }
  assert (Hkept : Forall (fun goal => PrimFloat.eqb (id goal) 0.5 = false)
                    [g; g]).
  { apply Forall_cons. split; [reflexivity |].
    apply Forall_cons. split; [reflexivity | apply Forall_nil_2]. }
  split; [exact Hsub |]. split; [exact Hkept |].
  exact (proj2 (proj2 (handleDeleteGoal_spec 0.5 [g; h; g]))
           [g; g] Hsub Hkept).
Defined.

(** X10: a goal added under an id no goal has yet is taken away again by
    deleting that id, and nothing else is: the list is back to what it
    was.  The id has to equal itself, which every number [Math.random]
    gives does. *)
Theorem add_then_delete (random : float) (goal summary : string) goals :
  PrimFloat.eqb random random = true ->
  Forall (fun g => PrimFloat.eqb (id g) random = false) goals ->
  handleDeleteGoal random (handleAddGoal random goal summary goals) = goals.
Proof.
  intros Hself Hfresh. unfold handleDeleteGoal, handleAddGoal.
  rewrite List.filter_app. simpl. unfold strict_ne at 2. simpl.
  rewrite Hself. simpl. rewrite app_nil_r.
  apply filter_all. eapply Forall_impl; [exact Hfresh |].
  intros g Hg. unfold strict_ne. by rewrite Hg.
Qed.

Lemma add_then_delete_witness :
  let first := {| id := 0.25%float; title := "Learn React";
                  description := "In depth" |} in
  PrimFloat.eqb 0.5 0.5 = true
  /\ Forall (fun g => PrimFloat.eqb (id g) 0.5 = false) [first]
  /\ handleDeleteGoal 0.5 (handleAddGoal 0.5 "Learn TS" "Basics" [first])
     = [first].
Proof.
  intros first.
  assert (Hfresh : Forall (fun g => PrimFloat.eqb (id g) 0.5 = false) [first]).
  { apply Forall_cons. split; [reflexivity | apply Forall_nil_2]. }
  split; [reflexivity |]. split; [exact Hfresh |].
  exact (add_then_delete 0.5 "Learn TS" "Basics" [first] eq_refl Hfresh).
Defined.

End GoalsFacts.

(** ** The component that loads the posts *)

Section PostsFacts.
Import Posts.
Implicit Types (state : AppState) (engine : JsError -> string).

(** X11: the screen shows the loading text while the posts are fetched and
    the list of posts otherwise.  The test on [fetchedPosts] holds for
    every array, so the error text put in [content] before it is always
    replaced: the error message is never shown. *)
Theorem content_never_error state :
  content state
  = Some (if isFetching state then LoadingFallback
          else BlogPosts (fetchedPosts state))
  /\ forall text, content state <> Some (ErrorMessage text).
Proof.
  assert (H : content state
              = Some (if isFetching state then LoadingFallback
                      else BlogPosts (fetchedPosts state))).
  { unfold content, truthy_array. by destruct (isFetching state). }
  split; [exact H |]. intros text. rewrite H.
  by destruct (isFetching state).
Qed.

(** X12: when [get] fails, for whatever reason, [fetchPosts] records the
    message of the error, leaves the posts as they were and ends the
    loading; what the screen then shows is the list of posts, not the
    message. *)
Theorem fetchPosts_failure engine server sent state e :
  (Http.get server url sent).1 = Throw e ->
  error (fetchPosts engine server sent state).1 = Some (message engine e)
  /\ fetchedPosts (fetchPosts engine server sent state).1
     = fetchedPosts state
  /\ isFetching (fetchPosts engine server sent state).1 = false
  /\ content (fetchPosts engine server sent state).1
     = Some (BlogPosts (fetchedPosts state)).
Proof.
  intros Hget. unfold fetchPosts.
  destruct (Http.get server url sent) as [data sent'] eqn:Hg.
  simpl in Hget. subst data. simpl. repeat split.
Qed.

Lemma fetchPosts_failure_witness :
  let server : Http.Server (list RawDataBlogPost) := fun _ _ =>
    Normal {| Http.ok := false; Http.json := Normal [] |} in
  let engine : JsError -> string := fun _ => "engine" in
  let e := Error "Failed to fetch data." in
  (Http.get server url 0).1 = Throw e
  /\ error (fetchPosts engine server 0 initialState).1
     = Some "Failed to fetch data."
  /\ fetchedPosts (fetchPosts engine server 0 initialState).1 = []
  /\ isFetching (fetchPosts engine server 0 initialState).1 = false
  /\ content (fetchPosts engine server 0 initialState).1
     = Some (BlogPosts []).
Proof.
  intros server engine e. split; [reflexivity |].
  exact (fetchPosts_failure engine server 0%nat initialState e eq_refl).
Defined.

(** X13: when the response is ok and its body parses, [fetchPosts] ends
    the loading, leaves the error as it was, and holds one post for each
    post received, in the same order, with its id and title and with its
    body as text. *)
Theorem fetchPosts_success engine server sent state response data :
  server url sent = Normal response ->
  Http.ok response = true ->
  Http.json response = Normal data ->
  isFetching (fetchPosts engine server sent state).1 = false
  /\ error (fetchPosts engine server sent state).1 = error state
  /\ length (fetchedPosts (fetchPosts engine server sent state).1)
     = length data
  /\ forall (k : nat) rawPost,
      data !! k = Some rawPost ->
      fetchedPosts (fetchPosts engine server sent state).1 !! k
      = Some {| post_id := id rawPost; post_title := title rawPost;
                text := body rawPost |}.
Proof.
  intros Hserver Hok Hjson. unfold fetchPosts.
  pose proof (get_ok server url sent response Hserver Hok) as Hget.
  destruct (Http.get server url sent) as [settled sent'].
  simpl in Hget. subst settled. rewrite Hjson. simpl.
  split; [done |]. split; [done |]. split; [apply length_fmap |].
  intros k rawPost Hk. by rewrite list_lookup_fmap, Hk.
Qed.

Lemma fetchPosts_success_witness :
  let rawPost := {| id := 1%float; userId := 7%float; title := "Hello";
                    body := "First post" |} in
  let response := {| Http.ok := true; Http.json := Normal [rawPost] |} in
  let server : Http.Server (list RawDataBlogPost) := fun _ _ =>
    Normal response in
  let engine : JsError -> string := fun _ => "engine" in
  server url 0%nat = Normal response
  /\ fetchedPosts (fetchPosts engine server 0 initialState).1 !! 0%nat
     = Some {| post_id := 1%float; post_title := "Hello";
               text := "First post" |}.
Proof.
  intros rawPost response server engine. split; [reflexivity |].
  exact (proj2 (proj2 (proj2
           (fetchPosts_success engine server 0%nat initialState response
              [rawPost] eq_refl eq_refl eq_refl)))
           0%nat rawPost eq_refl).
Defined.

End PostsFacts.

(** ** [get] with a schema *)

Section ValidatedFacts.
Context {Body T : Type}.
Implicit Types (server : Http.Server Body) (parse : Body -> completion T).

(** X14: the validating [get] never hands on data the schema has not
    accepted: a value it returns is what the schema made of the parsed
    body of a response that was ok. *)
Theorem validated_get_returns server parse url sent value :
  (Validated.get server parse url sent).1 = Normal value ->
  exists response data,
    server url sent = Normal response
    /\ Http.ok response = true
    /\ Http.json response = Normal data
    /\ parse data = Normal value.
Proof.
  unfold Validated.get, Http.fetch. simpl.
  destruct (server url sent) as [response | e]; [| discriminate].
  unfold mbind, completion_bind.
  destruct (Http.ok response) eqn:Hok; [| discriminate]. simpl.
  destruct (Http.json response) as [data | e] eqn:Hjson; [| discriminate].
  destruct (parse data) as [v | e] eqn:Hparse; [| discriminate].
  intros [= <-]. by exists response, data.
Qed.

(** X15: the errors of the validating [get] are four: the rejection of
    [fetch], 'Failed to fetch data.' for a response that is not ok, the
    exception of the JSON parse, and 'Invalid data received from server.'
    for data the schema refuses, whatever the schema itself threw. *)
Theorem validated_get_throws server parse url sent e :
  (Validated.get server parse url sent).1 = Throw e ->
  server url sent = Throw e
  \/ exists response,
      server url sent = Normal response
      /\ (Http.ok response = false /\ e = Error "Failed to fetch data."
          \/ Http.ok response = true /\ Http.json response = Throw e
          \/ exists data,
              Http.ok response = true
              /\ Http.json response = Normal data
              /\ throws (parse data)
              /\ e = Error "Invalid data received from server.").
Proof.
  unfold Validated.get, Http.fetch. simpl.
  destruct (server url sent) as [response | e'];
    [| intros [= <-]; by left].
  unfold mbind, completion_bind. intros H. right. exists response.
  split; [done |].
  destruct (Http.ok response) eqn:Hok; simpl in H.
  - destruct (Http.json response) as [data | e'] eqn:Hjson.
    + destruct (parse data) as [v | e'] eqn:Hparse; [discriminate |].
      injection H as <-. right. right. exists data.
      repeat split; try done. by exists e'.
    + injection H as <-. right. left. done.
  - injection H as <-. left. done.
Qed.

End ValidatedFacts.

Lemma validated_get_returns_witness :
  let server : Http.Server string := fun _ _ =>
    Normal {| Http.ok := true; Http.json := Normal "42" |} in
  let parse : string -> completion nat := fun data =>
    if String.eqb data "42" then Normal 42%nat else Throw TypeError in
  (Validated.get server parse "/answer" 0).1 = Normal 42%nat
  /\ exists response data,
      server "/answer" 0%nat = Normal response
      /\ Http.ok response = true
      /\ Http.json response = Normal data
      /\ parse data = Normal 42%nat.
Proof.
  intros server parse. split; [reflexivity |].
  exact (validated_get_returns server parse "/answer" 0%nat 42%nat eq_refl).
Defined.

Lemma validated_get_throws_witness :
  let response : Http.Response string :=
    {| Http.ok := true; Http.json := Normal "forty-two" |} in
  let server : Http.Server string := fun _ _ => Normal response in
  let parse : string -> completion nat := fun data =>
    if String.eqb data "42" then Normal 42%nat else Throw TypeError in
  let e := Error "Invalid data received from server." in
  (Validated.get server parse "/answer" 0).1 = Throw e
  /\ (server "/answer" 0%nat = Throw e
      \/ exists response,
          server "/answer" 0%nat = Normal response
          /\ (Http.ok response = false /\ e = Error "Failed to fetch data."
              \/ Http.ok response = true /\ Http.json response = Throw e
              \/ exists data,
                  Http.ok response = true
                  /\ Http.json response = Normal data
                  /\ throws (parse data)
                  /\ e = Error "Invalid data received from server.")).
Proof.
  intros response server parse e. split; [reflexivity |].
  exact (validated_get_throws server parse "/answer" 0%nat e eq_refl).
Defined.

(** ** [merge] *)

Section FirstAppFacts.
Import FirstApp.
Context {Value : Type}.
Implicit Types (a b : gmap string Value).

(** X16: in the object [merge] returns, a property that [b] has comes from
    [b], also when [a] has it too; a property that only [a] has comes
    from [a]; and it has no other property. *)
Theorem merge_lookup a b (key : string) :
  merge a b !! key
  = match b !! key with
    | Some value => Some value
    | None => a !! key
    end.
Proof.
  unfold merge. rewrite lookup_union.
  destruct (b !! key), (a !! key); reflexivity.
Qed.

End FirstAppFacts.
